(** * Cognitive complexity scoring: the recursive cost engine

    A shallow embedding of the cost-evaluation engine (calcElemCost, the
    NodeCost dispatcher, the per-construct handlers and isTopLevel) together
    with the properties its specification states about it.

    Conventions of the embedding:
    - a syntax node is a finite tree: its kind, the kinds of its chain of
      [parent] links (nearest first), its [getChildren()] sequence, its full
      text and its start position;
    - a thrown exception is the [Err] arm of [Result];
    - the mutable fields [_score] and [inner] of a cost object are a record
      that every [include] call transforms;
    - [throwingIterator] is the remaining suffix of the children; taking the
      next child of an exhausted iterator throws. *)

From Stdlib Require Import List String Bool Arith ZArith Lia Permutation.
Import ListNotations.

Set Warnings "-register-all".

(** ** Syntax tree *)

(** The members of [ts.SyntaxKind] the engine tests for, and two catch-all
    members for every other token and every other node kind. *)
Inductive SyntaxKind : Type :=
| QuestionToken | ColonToken | OpenParenToken | CloseParenToken
| IfKeyword | ElseKeyword | WhileKeyword
| OtherToken (tag : nat)
| Identifier
| SourceFile | Block | SyntaxList
| ArrowFunction | CatchClause | ConditionalExpression | DoStatement
| ForInStatement | ForOfStatement | ForStatement
| FunctionDeclaration | FunctionExpression | IfStatement
| MethodDeclaration | SwitchStatement | WhileStatement
| BreakStatement | ContinueStatement
| OtherNode (tag : nat).

Definition SyntaxKind_eq_dec (a b : SyntaxKind) : {a = b} + {a <> b}.
Proof. decide equality; apply Nat.eq_dec. Defined.

Definition kind_eqb (a b : SyntaxKind) : bool :=
  if SyntaxKind_eq_dec a b then true else false.

(** [node.parent], [node.parent.parent], ... are read only by [isTopLevel],
    and only for their kinds: the chain is kept as the list of those kinds,
    nearest parent first; the empty list is [parent === undefined]. *)
Inductive Node : Type :=
  mkNode {
    kind : SyntaxKind;
    ancestors : list SyntaxKind;
    getChildren : list Node;
    getFullText : string;
    getStart : nat * nat   (* line and character of the start position *)
  }.

(** [ts.isToken]: the kind lies in the token range of the enumeration, which
    holds punctuation, keywords and identifiers. *)
Definition isTokenKind (k : SyntaxKind) : bool :=
  match k with
  | QuestionToken | ColonToken | OpenParenToken | CloseParenToken
  | IfKeyword | ElseKeyword | WhileKeyword | OtherToken _ | Identifier => true
  | _ => false
  end.

Definition isToken (n : Node) : bool := isTokenKind (kind n).
Definition hasKind (k : SyntaxKind) (n : Node) : bool := kind_eqb (kind n) k.

Definition isArrowFunction := hasKind ArrowFunction.
Definition isBlock := hasKind Block.
Definition isCatchClause := hasKind CatchClause.
Definition isConditionalExpression := hasKind ConditionalExpression.
Definition isDoStatement := hasKind DoStatement.
Definition isForInStatement := hasKind ForInStatement.
Definition isForOfStatement := hasKind ForOfStatement.
Definition isForStatement := hasKind ForStatement.
Definition isFunctionDeclaration := hasKind FunctionDeclaration.
Definition isFunctionExpression := hasKind FunctionExpression.
Definition isIdentifier := hasKind Identifier.
Definition isIfStatement := hasKind IfStatement.
Definition isMethodDeclaration := hasKind MethodDeclaration.
Definition isSwitchStatement := hasKind SwitchStatement.
Definition isWhileStatement := hasKind WhileStatement.
Definition isSyntaxList := hasKind SyntaxList.

Definition isBreakOrContinueStatement (n : Node) : bool :=
  hasKind BreakStatement n || hasKind ContinueStatement n.

Definition isForLikeStatement (n : Node) : bool :=
  isForInStatement n || isForOfStatement n || isForStatement n.

(** function isBreakOrContinueToLabel *)
Definition isBreakOrContinueToLabel (n : Node) : bool :=
  if isBreakOrContinueStatement n then existsb isIdentifier (getChildren n)
  else false.

(** ** Results and exceptions *)

Inductive OutputElem : Type :=
  mkElem {
    name : string;
    score : nat;
    line : nat;
    column : nat;
    inner : list OutputElem
  }.

Inductive Error : Type :=
| UnexpectedNodeError (n : Node)   (* thrown by the handlers *)
| IteratorDone                     (* thrown by throwingIterator *)
| TypeError.                       (* a property read on undefined *)

Inductive Result (A : Type) : Type :=
| Ok (a : A)
| Err (e : Error).
Arguments Ok {A} a.
Arguments Err {A} e.

Definition bind {A B} (r : Result A) (k : A -> Result B) : Result B :=
  match r with
  | Ok a => k a
  | Err e => Err e
  end.

Notation "x <- r ;; k" := (bind r (fun x => k))
  (at level 61, r at next level, right associativity).

(** Modelled from the spec: [throwingIterator] of the module [./util], which
    is not among the sources.  It wraps the iterator of the children into a
    function that hands out the next child and, as its name and the
    specification of positional child consumption say, throws once no child
    is left.  (Were it to hand out undefined instead, the handler would
    throw at the next read of the kind or the children of that value: a
    handler that runs out of children returns no result either way.) *)
Definition iteratorDone {A} : Result A := Err IteratorDone.
Arguments iteratorDone {A} /.

(** [const child = nextChild();] on the iterator state [it]. *)
Notation "'nextChild' x 'from' it 'rest' it' ;; k" :=
  (match it with
   | nil => iteratorDone
   | cons x it' => k
   end)
  (at level 61, x name, it' name, right associativity).

(** ** isTopLevel *)

Definition kindIsSourceFile (k : SyntaxKind) : bool := kind_eqb k SourceFile.
Definition kindIsBlock (k : SyntaxKind) : bool := kind_eqb k Block.

(** [isTopLevelFrom chain] is [isTopLevel(n)] for a node [n] whose parent
    chain is [chain].  The inner loop is the [while (ts.isBlock(...))] walk,
    started at the parent; reading the kind of a missing parent throws. *)
Fixpoint isTopLevelFrom (chain : list SyntaxKind) : Result bool :=
  match chain with
  | [] => Ok true
  | parent :: above =>
      if kindIsSourceFile parent then Ok true
      else if kindIsBlock parent then
        (* the walk leaves [parent]: highestNonBlockAncestor !== parent *)
        (fix walk (up : list SyntaxKind) : Result bool :=
           match up with
           | [] => Err TypeError
           | highest :: up' =>
               if kindIsBlock highest then walk up'
               else isTopLevelFrom up'
           end) above
      else
        (* the walk stops at once: highestNonBlockAncestor === parent *)
        Ok false
  end.

Definition isTopLevel (n : Node) : Result bool := isTopLevelFrom (ancestors n).

(** [Array.prototype.slice(start, end)], [end] being optional.  A negative
    index counts from the end of the array and is clamped at its beginning;
    any other index is clamped at its end. *)
Definition sliceIndex (len : nat) (i : Z) : nat :=
  if (i <? 0)%Z then len - Z.to_nat (- i) else Nat.min (Z.to_nat i) len.

Definition slice {A} (l : list A) (startIx : Z) (endIx : option Z) : list A :=
  let len := List.length l in
  let a := sliceIndex len startIx in
  let b := match endIx with Some e => sliceIndex len e | None => len end in
  firstn (b - a) (skipn a l).

(** ** Cost objects *)

(** The two mutable fields of an [AbstractNodeCost]. *)
Record Cost : Type :=
  mkCost {
    _score : nat;
    _inner : list OutputElem
  }.

Definition newCost : Cost := mkCost 0 [].

(** [this._score += n] *)
Definition addScore (n : nat) (c : Cost) : Cost :=
  mkCost (_score c + n) (_inner c).

(** [this.inner.push(...inner); this._score += score] *)
Definition absorb (sub : Cost) (c : Cost) : Cost :=
  mkCost (_score c + _score sub) (_inner c ++ _inner sub).

Section Handlers.

(** The recursive call of [include]: [calcElemCost] itself, once the knot
    is tied below. *)
Variable calc : Node -> nat -> Result OutputElem.

(** AbstractNodeCost.include *)
Definition include (node : Node) (depth : nat) (c : Cost) : Result Cost :=
  elem <- calc node depth ;;
  Ok (mkCost (_score c + score elem) (_inner c ++ [elem])).

(** AbstractNodeCost.includeAll *)
Fixpoint includeAll (nodes : list Node) (depth : nat) (c : Cost)
  : Result Cost :=
  match nodes with
  | [] => Ok c
  | child :: nodes' =>
      c' <- include child depth c ;;
      includeAll nodes' depth c'
  end.

(** [include(undefined, depth)]: [calcElemCost] reads [getChildren] of
    undefined and throws. *)
Definition includeMaybe (node : option Node) (depth : nat) (c : Cost)
  : Result Cost :=
  match node with
  | Some n => include n depth c
  | None => Err TypeError
  end.

(** class AbstractFunctionCost.  [topLevel] is a parameter property: its
    default value [isTopLevel(node)] is computed when the constructor is
    entered, and the field is assigned after [super(node, depth)] has
    returned.  [calculate()] runs inside that call, so it reads
    [this.topLevel] as undefined. *)
Definition thisTopLevel : option bool := None.

(** The truth value of a boolean field that may be undefined. *)
Definition truthy (v : option bool) : bool :=
  match v with
  | Some b => b
  | None => false
  end.

(** class ArrowFunctionCost *)
Definition ArrowFunctionCost (node : Node) (depth : nat) : Result Cost :=
  _topLevel <- isTopLevel node ;;
  let it := getChildren node in
  nextChild _open from it rest it ;;
  nextChild params from it rest it ;;
  c <- include params depth newCost ;;
  nextChild _close from it rest it ;;
  nextChild _arrow from it rest it ;;
  nextChild body from it rest it ;;
  include body (if truthy thisTopLevel then depth else depth + 1) c.

(** class ConditionalExpressionCost.  [childNodesToAggregate.push()] is
    called without an argument, so the array is left as it is. *)
Fixpoint ConditionalExpressionLoop (it : list Node) (depth : nat)
    (childNodesToAggregate : list Node) (c : Cost) : Result Cost :=
  match it with
  | [] =>
      (* aggregate else *)
      includeAll childNodesToAggregate depth c
  | child :: it' =>
      if isToken child && hasKind QuestionToken child then
        c' <- includeAll childNodesToAggregate depth c ;;
        ConditionalExpressionLoop it' depth [] c'
      else if isToken child && hasKind ColonToken child then
        c' <- includeAll childNodesToAggregate (depth + 1) c ;;
        ConditionalExpressionLoop it' depth [] c'
      else
        ConditionalExpressionLoop it' depth (childNodesToAggregate ++ []) c
  end.

Definition ConditionalExpressionCost (node : Node) (depth : nat)
  : Result Cost :=
  ConditionalExpressionLoop (getChildren node) depth [] newCost.

(** class DoStatementCost *)
Definition DoStatementCost (node : Node) (depth : nat) : Result Cost :=
  let it := getChildren node in
  nextChild _do from it rest it ;;
  nextChild block from it rest it ;;
  c <- include block (depth + 1) newCost ;;
  nextChild _while from it rest it ;;
  nextChild _open from it rest it ;;
  nextChild condition from it rest it ;;
  include condition depth c.

(** class IfStatementCost: one turn of the [while (true)] loop per
    recursive call. *)
Fixpoint IfStatementLoop (it : list Node) (depth : nat) (c : Cost)
  : Result Cost :=
  nextChild child from it rest it ;;
  if isToken child && hasKind IfKeyword child then
    nextChild _open from it rest it ;;
    nextChild condition from it rest it ;;
    c' <- include condition depth c ;;
    IfStatementLoop it depth c'
  else if isToken child && hasKind CloseParenToken child then
    nextChild thenBranch from it rest it ;;
    c' <- include thenBranch (depth + 1) c ;;
    IfStatementLoop it depth c'
  else if isToken child && hasKind ElseKeyword child then
    nextChild elseBranch from it rest it ;;
    include elseBranch (depth + 1) c
  else
    Err (UnexpectedNodeError child).

Definition IfStatementCost (node : Node) (depth : nat) : Result Cost :=
  IfStatementLoop (getChildren node) depth newCost.

(** class FileCost *)
Definition FileCost (file : Node) : Result Cost :=
  includeAll (getChildren file) 0 newCost.

(** class ForLikeStatementCost.  The loop consumes the head of the statement
    up to the close parenthesis; the statement after the loop is written in
    the arm that breaks out of it. *)
Fixpoint ForLikeStatementLoop (it : list Node) (depth : nat) (c : Cost)
  : Result Cost :=
  nextChild child from it rest it ;;
  if isToken child && hasKind CloseParenToken child then
    (* consume looped code *)
    nextChild body from it rest it ;;
    include body (depth + 1) c
  else
    c' <- include child depth c ;;
    ForLikeStatementLoop it depth c'.

Definition ForLikeStatementCost (node : Node) (depth : nat) : Result Cost :=
  let it := getChildren node in
  nextChild _for from it rest it ;;
  nextChild _open from it rest it ;;
  ForLikeStatementLoop it depth newCost.

(** class FunctionDeclarationCost *)
Fixpoint FunctionDeclarationLoop (it : list Node) (depth : nat) (c : Cost)
  : Result Cost :=
  nextChild child from it rest it ;;
  if isSyntaxList child then
    c' <- include child depth c ;;
    FunctionDeclarationLoop it depth c'
  else if isBlock child then
    include child (depth + 1) c
  else
    FunctionDeclarationLoop it depth c.

Definition FunctionDeclarationCost (node : Node) (depth : nat) : Result Cost :=
  _topLevel <- isTopLevel node ;;
  FunctionDeclarationLoop (getChildren node) depth newCost.

(** class FunctionExpressionCost *)
Definition FunctionExpressionCost (node : Node) (depth : nat) : Result Cost :=
  _topLevel <- isTopLevel node ;;
  let children := getChildren node in
  let functionBody := slice children (-1) None in
  let functionDecl := hd_error (slice children 0 (Some (-1)%Z)) in
  c <- includeAll functionBody depth newCost ;;
  includeMaybe functionDecl (depth + 1) c.

(** class MethodDeclarationCost *)
Fixpoint MethodDeclarationLoop (it : list Node) (depth : nat) (c : Cost)
  : Result Cost :=
  nextChild child from it rest it ;;
  if isBlock child then
    nextChild afterBlock from it rest it ;;
    include afterBlock (if truthy thisTopLevel then depth else depth + 1) c
  else
    c' <- include child depth c ;;
    MethodDeclarationLoop it depth c'.

Definition MethodDeclarationCost (node : Node) (depth : nat) : Result Cost :=
  _topLevel <- isTopLevel node ;;
  MethodDeclarationLoop (getChildren node) depth newCost.

(** class SwitchStatementCost *)
Definition SwitchStatementCost (node : Node) (depth : nat) : Result Cost :=
  let it := getChildren node in
  nextChild _switch from it rest it ;;
  nextChild _open from it rest it ;;
  nextChild condition from it rest it ;;
  c <- include condition depth newCost ;;
  nextChild _close from it rest it ;;
  nextChild cases from it rest it ;;
  include cases (depth + 1) c.

(** class WhileStatementCost.  The second [if] is not chained to the first
    by an [else]; each of its two arms leaves the [while (true)] loop, so the
    loop body runs once. *)
Definition WhileStatementCost (node : Node) (depth : nat) : Result Cost :=
  let it := getChildren node in
  nextChild child from it rest it ;;
  let afterFirstIf (it : list Node) (c : Cost) : Result Cost :=
    if isToken child && hasKind CloseParenToken child then
      nextChild body from it rest it ;;
      include body (depth + 1) c
    else
      Err (UnexpectedNodeError child) in
  if isToken child && hasKind WhileKeyword child then
    nextChild _open from it rest it ;;
    nextChild condition from it rest it ;;
    c <- include condition depth newCost ;;
    afterFirstIf it c
  else
    afterFirstIf it newCost.

(** class NodeCost: the two universal rules ... *)
Definition inherentCost (node : Node) : nat :=
  if isCatchClause node
     || isConditionalExpression node
     || isForInStatement node
     || isForOfStatement node
     || isForStatement node
     || isIfStatement node
     || isSwitchStatement node
     || isWhileStatement node
     || isBreakOrContinueToLabel node
  then 1 else 0.

Definition nestingCost (node : Node) (depth : nat) : nat :=
  if (0 <? depth)
     && (isConditionalExpression node
         || isForInStatement node
         || isForOfStatement node
         || isForStatement node
         || isIfStatement node
         || isSwitchStatement node
         || isWhileStatement node)
  then depth else 0.

(** ... and the dispatch on the kind of the node. *)
Definition NodeCost (node : Node) (depth : nat) : Result Cost :=
  let c := addScore (inherentCost node) newCost in
  let c := addScore (nestingCost node depth) c in
  if isArrowFunction node then
    sub <- ArrowFunctionCost node depth ;; Ok (absorb sub c)
  else if isCatchClause node then
    includeAll (getChildren node) (depth + 1) c
  else if isConditionalExpression node then
    sub <- ConditionalExpressionCost node depth ;; Ok (absorb sub c)
  else if isDoStatement node then
    sub <- DoStatementCost node depth ;; Ok (absorb sub c)
  else if isForLikeStatement node then
    sub <- ForLikeStatementCost node depth ;; Ok (absorb sub c)
  else if isFunctionDeclaration node then
    sub <- FunctionDeclarationCost node depth ;; Ok (absorb sub c)
  else if isFunctionExpression node then
    sub <- FunctionExpressionCost node depth ;; Ok (absorb sub c)
  else if isIfStatement node then
    sub <- IfStatementCost node depth ;; Ok (absorb sub c)
  else if isMethodDeclaration node then
    sub <- MethodDeclarationCost node depth ;; Ok (absorb sub c)
  else if isSwitchStatement node then
    sub <- SwitchStatementCost node depth ;; Ok (absorb sub c)
  else if isWhileStatement node then
    sub <- WhileStatementCost node depth ;; Ok (absorb sub c)
  else
    includeAll (getChildren node) depth c.

(** The first loop of [calcElemCost]: every child is scored with the
    default depth, 0. *)
Fixpoint scoreChildren (children : list Node) (c : Cost) : Result Cost :=
  match children with
  | [] => Ok c
  | child :: children' =>
      elem <- calc child 0 ;;
      scoreChildren children'
        (mkCost (_score c + score elem) (_inner c ++ [elem]))
  end.

(** The body of [calcElemCost]. *)
Definition calcElemCostBody (node : Node) (depth : nat) : Result OutputElem :=
  c <- scoreChildren (getChildren node) newCost ;;
  nodeCost <- NodeCost node depth ;;
  let c := absorb nodeCost c in
  Ok (mkElem (getFullText node) (_score c)
             (fst (getStart node)) (snd (getStart node)) (_inner c)).

End Handlers.

(** ** calcElemCost *)

(** [calcElemCost] calls itself on children of its argument only, so the
    recursion is bounded by the height of the node. *)
Fixpoint height (node : Node) : nat :=
  match node with
  | mkNode _ _ children _ _ => S (list_max (map height children))
  end.

Fixpoint calcElemCostWithin (bound : nat) (node : Node) (depth : nat)
  : Result OutputElem :=
  match bound with
  | 0 => Err TypeError
  | S bound' => calcElemCostBody (calcElemCostWithin bound') node depth
  end.

Definition calcElemCost (node : Node) (depth : nat) : Result OutputElem :=
  calcElemCostWithin (height node) node depth.

(** function calcFileCost, as the cost object it builds *)
Definition calcFileCost (file : Node) : Result Cost :=
  FileCost calcElemCost file.

(** ** Vocabulary of the properties *)

(** Two candidates for the recursive call that agree on the nodes of [l]. *)
Definition agreeOn (l : list Node) (f g : Node -> nat -> Result OutputElem)
  : Prop :=
  forall n, In n l -> forall d, f n d = g n d.

(** The sum of the scores of a sequence of results. *)
Definition sumScores (l : list OutputElem) : nat := list_sum (map score l).

(** The score of a result and the scores a cost object collected, when there
    is one. *)
Definition scoreOf (r : Result OutputElem) : option nat :=
  match r with Ok e => Some (score e) | Err _ => None end.

Definition collectedScores (r : Result Cost) : option (list nat) :=
  match r with Ok c => Some (map score (_inner c)) | Err _ => None end.

(** What a node adds to its score by itself: the two universal rules of the
    dispatcher.  No handler adds anything else of its own. *)
Definition localContribution (node : Node) (depth : nat) : nat :=
  inherentCost node + nestingCost node depth.

(** A cost object whose score is [k] above the scores it has collected. *)
Definition balanced (k : nat) (c : Cost) : Prop :=
  _score c = k + sumScores (_inner c).

(** The kinds the specification lists for the intrinsic cost and for the
    nesting addend, and its reading of a jump that names a label. *)
Definition intrinsicKinds : list SyntaxKind :=
  [CatchClause; ConditionalExpression; ForInStatement; ForOfStatement;
   ForStatement; IfStatement; SwitchStatement; WhileStatement].

Definition nestingKinds : list SyntaxKind :=
  [ConditionalExpression; ForInStatement; ForOfStatement; ForStatement;
   IfStatement; SwitchStatement; WhileStatement].

Definition isJump (node : Node) : Prop :=
  kind node = BreakStatement \/ kind node = ContinueStatement.

Definition hasLabel (node : Node) : Prop :=
  exists child, In child (getChildren node) /\ kind child = Identifier.

(** [child] scored at depth [d] yields the result [e]. *)
Definition scoredAt (d : nat) (child : Node) (e : OutputElem) : Prop :=
  calcElemCost child d = Ok e.



(** The node reaches the last arm of the dispatch: no construct handler and
    no catch clause. *)
Definition reachesDefaultArm (node : Node) : bool :=
  negb (isArrowFunction node || isCatchClause node
        || isConditionalExpression node || isDoStatement node
        || isForLikeStatement node || isFunctionDeclaration node
        || isFunctionExpression node || isIfStatement node
        || isMethodDeclaration node || isSwitchStatement node
        || isWhileStatement node).

(** ** Sample trees *)

Local Open Scope string_scope.

Definition FunctionKeyword := OtherToken 1.
Definition BreakKeyword := OtherToken 2.
Definition SemicolonToken := OtherToken 3.
Definition OpenBraceToken := OtherToken 4.
Definition CloseBraceToken := OtherToken 5.
Definition ExpressionStatement := OtherNode 0.
Definition ClassDeclaration := OtherNode 1.

Definition leaf (k : SyntaxKind) (anc : list SyntaxKind) (text : string)
  : Node :=
  mkNode k anc [] text (0, 0).

(** [if (a) b; else c;] under the chain [anc] *)
Definition sampleIfElse (anc : list SyntaxKind) : Node :=
  let up := IfStatement :: anc in
  mkNode IfStatement anc
    [leaf IfKeyword up "if"; leaf OpenParenToken up "(";
     leaf Identifier up "a"; leaf CloseParenToken up ")";
     leaf ExpressionStatement up " b;"; leaf ElseKeyword up " else";
     leaf ExpressionStatement up " c;"]
    "if (a) b; else c;" (0, 0).

(** [if (a) b;] *)
Definition sampleIf (anc : list SyntaxKind) : Node :=
  let up := IfStatement :: anc in
  mkNode IfStatement anc
    [leaf IfKeyword up "if"; leaf OpenParenToken up "(";
     leaf Identifier up "a"; leaf CloseParenToken up ")";
     leaf ExpressionStatement up " b;"]
    "if (a) b;" (0, 0).

(** [while (a) b;] *)
Definition sampleWhile (anc : list SyntaxKind) : Node :=
  let up := WhileStatement :: anc in
  mkNode WhileStatement anc
    [leaf WhileKeyword up "while"; leaf OpenParenToken up "(";
     leaf Identifier up "a"; leaf CloseParenToken up ")";
     leaf ExpressionStatement up " b;"]
    "while (a) b;" (0, 0).


(** [a ? b : c] *)
Definition sampleConditional (anc : list SyntaxKind) : Node :=
  let up := ConditionalExpression :: anc in
  mkNode ConditionalExpression anc
    [leaf Identifier up "a"; leaf QuestionToken up " ?";
     leaf Identifier up " b"; leaf ColonToken up " :";
     leaf Identifier up " c"]
    "a ? b : c" (0, 0).

(** [{ if (a) b; else c; }] *)
Definition sampleBlock (anc : list SyntaxKind) : Node :=
  let up := Block :: anc in
  mkNode Block anc
    [leaf OpenBraceToken up "{";
     mkNode SyntaxList up [sampleIfElse up] " if (a) b; else c;" (0, 2);
     leaf CloseBraceToken up " }"]
    "{ if (a) b; else c; }" (0, 0).

(** [function f() { if (a) b; else c; }] *)
Definition sampleFunctionDeclaration (anc : list SyntaxKind) : Node :=
  let up := FunctionDeclaration :: anc in
  mkNode FunctionDeclaration anc
    [leaf FunctionKeyword up "function"; leaf Identifier up " f";
     leaf OpenParenToken up "("; leaf SyntaxList up "";
     leaf CloseParenToken up ")"; sampleBlock up]
    "function f() { if (a) b; else c; }" (0, 0).

(** [function () { if (a) b; else c; }] *)
Definition sampleFunctionExpression (anc : list SyntaxKind) : Node :=
  let up := FunctionExpression :: anc in
  mkNode FunctionExpression anc
    [leaf FunctionKeyword up "function";
     leaf OpenParenToken up "("; leaf SyntaxList up "";
     leaf CloseParenToken up ")"; sampleBlock up]
    "function () { if (a) b; else c; }" (0, 0).

(** [m() { if (a) b; else c; }], a member of a class *)
Definition sampleMethodDeclaration (anc : list SyntaxKind) : Node :=
  let up := MethodDeclaration :: anc in
  mkNode MethodDeclaration anc
    [leaf Identifier up "m";
     leaf OpenParenToken up "("; leaf SyntaxList up "";
     leaf CloseParenToken up ")"; sampleBlock up]
    "m() { if (a) b; else c; }" (0, 0).

(** [break outer;] and [break;] *)
Definition sampleBreakToLabel (anc : list SyntaxKind) : Node :=
  let up := BreakStatement :: anc in
  mkNode BreakStatement anc
    [leaf BreakKeyword up "break"; leaf Identifier up " outer";
     leaf SemicolonToken up ";"]
    "break outer;" (0, 0).

Definition sampleBreak (anc : list SyntaxKind) : Node :=
  let up := BreakStatement :: anc in
  mkNode BreakStatement anc
    [leaf BreakKeyword up "break"; leaf SemicolonToken up ";"]
    "break;" (0, 0).

(** [function g() {}] declared in the body of the function above *)
Definition sampleNestedFunction : Node :=
  leaf FunctionDeclaration [Block; FunctionDeclaration; SourceFile]
    "function g() {}".

Local Close Scope string_scope.

(** ** Vocabulary of the further properties *)

(** No result: an exception was thrown. *)
Definition throws {A} (r : Result A) : Prop :=
  match r with Ok _ => False | Err _ => True end.

(** [inside node x]: [x] is a child of [node], or a child of a child, and so
    on along [getChildren]. *)
Inductive inside (node : Node) : Node -> Prop :=
| inside_child child :
    In child (getChildren node) -> inside node child
| inside_deeper child x :
    In child (getChildren node) -> inside child x -> inside node x.

(** Two outcomes of the same computation at a lower and at a higher depth:
    the same exception, or two results the second of which scores at least
    as much as the first. *)
Definition noLower (low high : Result OutputElem) : Prop :=
  match low, high with
  | Ok e, Ok e' => score e <= score e'
  | Err a, Err b => a = b
  | _, _ => False
  end.

Definition noLowerCost (low high : Result Cost) : Prop :=
  match low, high with
  | Ok c, Ok c' => _score c <= _score c'
  | Err a, Err b => a = b
  | _, _ => False
  end.

(** The recursive call [calc] is [noLower] on the nodes of [l]. *)
Definition noLowerOn (calc : Node -> nat -> Result OutputElem)
    (l : list Node) : Prop :=
  forall n, In n l -> forall d d', d <= d' -> noLower (calc n d) (calc n d').

(** The number of nodes of a tree, the root included, that carry the
    inherent cost. *)
Fixpoint countInherent (node : Node) : nat :=
  match node with
  | mkNode _ _ children _ _ =>
      inherentCost node + list_sum (map countInherent children)
  end.

(** More sample trees. *)

Definition ForKeyword := OtherToken 6.
Definition SwitchKeyword := OtherToken 7.
Definition EqualsGreaterThanToken := OtherToken 8.
Definition EndOfFileToken := OtherToken 9.
Definition CaseBlock := OtherNode 2.
Definition VariableDeclaration := OtherNode 3.

(** [for (;;) if (a) b; else c;] *)
Definition sampleFor (anc : list SyntaxKind) : Node :=
  let up := ForStatement :: anc in
  mkNode ForStatement anc
    [leaf ForKeyword up "for"; leaf OpenParenToken up " (";
     leaf SemicolonToken up ";"; leaf SemicolonToken up ";";
     leaf CloseParenToken up ")"; sampleIfElse up]
    "for (;;) if (a) b; else c;" (0, 0).

(** [switch (a) { }] *)
Definition sampleSwitch (anc : list SyntaxKind) : Node :=
  let up := SwitchStatement :: anc in
  mkNode SwitchStatement anc
    [leaf SwitchKeyword up "switch"; leaf OpenParenToken up " (";
     leaf Identifier up "a"; leaf CloseParenToken up ")";
     leaf CaseBlock up " { }"]
    "switch (a) { }" (0, 0).

(** [() => { if (a) b; else c; }] *)
Definition sampleArrowFunction (anc : list SyntaxKind) : Node :=
  let up := ArrowFunction :: anc in
  mkNode ArrowFunction anc
    [leaf OpenParenToken up "("; leaf SyntaxList up "";
     leaf CloseParenToken up ")"; leaf EqualsGreaterThanToken up " =>";
     sampleBlock up]
    "() => { if (a) b; else c; }" (0, 0).

(** [x => x]: the parameter list, the arrow and the body *)
Definition sampleShortArrowFunction (anc : list SyntaxKind) : Node :=
  let up := ArrowFunction :: anc in
  mkNode ArrowFunction anc
    [mkNode SyntaxList up [leaf Identifier up "x"] "x" (0, 0);
     leaf EqualsGreaterThanToken up " =>"; leaf Identifier up " x"]
    "x => x" (0, 0).

(** [function f();], a declaration without a body *)
Definition sampleOverload (anc : list SyntaxKind) : Node :=
  let up := FunctionDeclaration :: anc in
  mkNode FunctionDeclaration anc
    [leaf FunctionKeyword up "function"; leaf Identifier up " f";
     leaf OpenParenToken up "("; leaf SyntaxList up "";
     leaf CloseParenToken up ")"; leaf SemicolonToken up ";"]
    "function f();" (0, 0).

(** The statement list [if (a) b; else c;] of a block under [anc] *)
Definition sampleStatements (anc : list SyntaxKind) : Node :=
  mkNode SyntaxList anc [sampleIfElse anc] " if (a) b; else c;" (0, 2).

(** A file with the statements [stmts]. *)
Definition sampleFile (stmts : list Node) : Node :=
  mkNode SourceFile []
    [mkNode SyntaxList [SourceFile] stmts "" (0, 0);
     leaf EndOfFileToken [SourceFile] ""]
    "" (0, 0).

(** * Properties *)

(** ** Kinds *)

Lemma kind_eqb_eq a b : kind_eqb a b = true <-> a = b.
Proof.
  unfold kind_eqb; destruct (SyntaxKind_eq_dec a b); intuition congruence.
Qed.

Lemma kind_eqb_neq a b : a <> b -> kind_eqb a b = false.
Proof. unfold kind_eqb; destruct (SyntaxKind_eq_dec a b); congruence. Qed.

(** ** The recursive equation of calcElemCost *)

(** Induction on a bound [n] of the length of the iterator [it]: a handler
    loop takes up to three children in one turn. *)
Ltac by_length it n :=
  let Hn := fresh "Hn" in
  remember (List.length it) as n eqn:Hn;
  assert (Hlen : List.length it <= n) by lia; clear Hn; revert it Hlen.

Section Extensionality.

Variables f g : Node -> nat -> Result OutputElem.

Lemma include_ext n d c : f n d = g n d -> include f n d c = include g n d c.
Proof. unfold include; now intros ->. Qed.

Lemma includeAll_ext l : agreeOn l f g ->
  forall d c, includeAll f l d c = includeAll g l d c.
Proof.
  induction l as [|n l IH]; intros H d c; simpl; [reflexivity|].
  rewrite (include_ext n d c (H n (or_introl eq_refl) d)).
  destruct (include g n d c); simpl; [|reflexivity].
  apply IH. intros m Hm. apply H. now right.
Qed.

Lemma scoreChildren_ext l : agreeOn l f g ->
  forall c, scoreChildren f l c = scoreChildren g l c.
Proof.
  induction l as [|n l IH]; intros H c; simpl; [reflexivity|].
  rewrite (H n (or_introl eq_refl) 0).
  destruct (g n 0); simpl; [|reflexivity].
  apply IH. intros m Hm. apply H. now right.
Qed.

Lemma agreeOn_incl l l' : incl l' l -> agreeOn l f g -> agreeOn l' f g.
Proof. intros Hi H n Hn. apply H, Hi, Hn. Qed.

Lemma agreeOn_app l l' : agreeOn l f g -> agreeOn l' f g -> agreeOn (l ++ l') f g.
Proof. intros H H' n Hn. apply in_app_or in Hn as [Hn|Hn]; auto. Qed.

(** One turn of a handler loop: split on the tests and on the iterator,
    replace [f] by [g] at the child that is included, and close the turn
    with the induction hypothesis on the shorter iterator. *)
Ltac loop_turn IH Hag :=
  repeat match goal with
  | |- ?x = ?x => reflexivity
  | |- context [include f ?n ?d ?c] =>
      rewrite (include_ext n d c (Hag n ltac:(simpl; tauto) d));
      destruct (include g n d c); simpl
  | |- context [if ?b then _ else _] => destruct b; simpl
  | |- context [match ?l with nil => _ | cons _ _ => _ end] =>
      is_var l; destruct l; simpl in *
  | |- _ => apply IH;
      [simpl in *; lia | eapply agreeOn_incl; [|exact Hag]; intros ? ?; simpl; tauto]
  end.

Lemma IfStatementLoop_ext it : agreeOn it f g ->
  forall d c, IfStatementLoop f it d c = IfStatementLoop g it d c.
Proof.
  by_length it n.
  induction n as [|n IH]; intros it Hlen Hag d c;
    (destruct it; simpl in *; [reflexivity|]); [lia|].
  loop_turn IH Hag.
Qed.

Lemma ForLikeStatementLoop_ext it : agreeOn it f g ->
  forall d c, ForLikeStatementLoop f it d c = ForLikeStatementLoop g it d c.
Proof.
  by_length it n.
  induction n as [|n IH]; intros it Hlen Hag d c;
    (destruct it; simpl in *; [reflexivity|]); [lia|].
  loop_turn IH Hag.
Qed.

Lemma FunctionDeclarationLoop_ext it : agreeOn it f g ->
  forall d c,
    FunctionDeclarationLoop f it d c = FunctionDeclarationLoop g it d c.
Proof.
  by_length it n.
  induction n as [|n IH]; intros it Hlen Hag d c;
    (destruct it; simpl in *; [reflexivity|]); [lia|].
  loop_turn IH Hag.
Qed.

Lemma MethodDeclarationLoop_ext it : agreeOn it f g ->
  forall d c,
    MethodDeclarationLoop f it d c = MethodDeclarationLoop g it d c.
Proof.
  by_length it n.
  induction n as [|n IH]; intros it Hlen Hag d c;
    (destruct it; simpl in *; [reflexivity|]); [lia|].
  loop_turn IH Hag.
Qed.

Lemma ConditionalExpressionLoop_ext it : agreeOn it f g ->
  forall d pending c, agreeOn pending f g ->
    ConditionalExpressionLoop f it d pending c
    = ConditionalExpressionLoop g it d pending c.
Proof.
  induction it as [|child it IH]; intros Hag d pending c Hp; simpl.
  - now apply includeAll_ext.
  - assert (Hit : agreeOn it f g) by (intros m Hm; apply Hag; now right).
    assert (Hnil : agreeOn [] f g) by (intros m []).
    destruct (isToken child && hasKind QuestionToken child);
      [|destruct (isToken child && hasKind ColonToken child)].
    + rewrite (includeAll_ext pending Hp).
      destruct (includeAll g pending d c); simpl; auto.
    + rewrite (includeAll_ext pending Hp).
      destruct (includeAll g pending (d + 1) c); simpl; auto.
    + apply IH; auto. now apply agreeOn_app.
Qed.

Lemma slice_incl (l : list Node) a b : incl (slice l a b) l.
Proof.
  unfold slice. intros n Hn.
  rewrite <- (firstn_skipn (sliceIndex (List.length l) a) l).
  apply in_or_app; right.
  match type of Hn with In _ (firstn ?k ?r) =>
    rewrite <- (firstn_skipn k r); apply in_or_app; now left end.
Qed.

Lemma FunctionExpressionCost_ext node d : agreeOn (getChildren node) f g ->
  FunctionExpressionCost f node d = FunctionExpressionCost g node d.
Proof.
  intros Hag. unfold FunctionExpressionCost.
  destruct (isTopLevel node); simpl; [|reflexivity].
  rewrite (includeAll_ext _ (agreeOn_incl _ _ (slice_incl _ _ _) Hag)).
  destruct (includeAll g _ d newCost); simpl; [|reflexivity].
  destruct (hd_error (slice (getChildren node) 0 (Some (-1)%Z))) as [n|] eqn:E;
    simpl; [|reflexivity].
  apply include_ext, Hag.
  apply (slice_incl (getChildren node) 0 (Some (-1)%Z)).
  destruct (slice (getChildren node) 0 (Some (-1)%Z)); inversion E; now left.
Qed.

(** The handlers that take a fixed number of children. *)
Ltac straight_line Hag :=
  repeat match goal with
  | |- ?x = ?x => reflexivity
  | |- context [isTopLevel ?n] => destruct (isTopLevel n); simpl
  | |- context [include f ?n ?d ?c] =>
      rewrite (include_ext n d c (Hag n ltac:(simpl; tauto) d));
      destruct (include g n d c); simpl
  | |- context [if ?b then _ else _] => destruct b; simpl
  | |- context [match ?l with nil => _ | cons _ _ => _ end] =>
      is_var l; destruct l; simpl in *
  end.

Lemma NodeCost_ext node d : agreeOn (getChildren node) f g ->
  NodeCost f node d = NodeCost g node d.
Proof.
  intros Hag.
  assert (Hnil : agreeOn [] f g) by (intros m []).
  assert (HC : ConditionalExpressionCost f node d
               = ConditionalExpressionCost g node d)
    by (apply ConditionalExpressionLoop_ext; assumption).
  assert (HI : IfStatementCost f node d = IfStatementCost g node d)
    by (apply IfStatementLoop_ext; assumption).
  assert (HFD : FunctionDeclarationCost f node d
                = FunctionDeclarationCost g node d).
  { unfold FunctionDeclarationCost.
    now rewrite (FunctionDeclarationLoop_ext _ Hag). }
  assert (HM : MethodDeclarationCost f node d = MethodDeclarationCost g node d).
  { unfold MethodDeclarationCost.
    destruct (isTopLevel node); simpl; [|reflexivity].
    now apply MethodDeclarationLoop_ext. }
  assert (HF : ForLikeStatementCost f node d = ForLikeStatementCost g node d).
  { unfold ForLikeStatementCost.
    destruct (getChildren node) as [|a [|b it]]; try reflexivity.
    apply ForLikeStatementLoop_ext.
    intros m Hm. apply Hag. simpl; tauto. }
  assert (HA : ArrowFunctionCost f node d = ArrowFunctionCost g node d).
  { unfold ArrowFunctionCost.
    destruct (getChildren node) as [|? l]; straight_line Hag. }
  assert (HD : DoStatementCost f node d = DoStatementCost g node d).
  { unfold DoStatementCost.
    destruct (getChildren node) as [|? l]; straight_line Hag. }
  assert (HS : SwitchStatementCost f node d = SwitchStatementCost g node d).
  { unfold SwitchStatementCost.
    destruct (getChildren node) as [|? l]; straight_line Hag. }
  assert (HW : WhileStatementCost f node d = WhileStatementCost g node d).
  { unfold WhileStatementCost.
    destruct (getChildren node) as [|? l]; straight_line Hag. }
  unfold NodeCost.
  rewrite !(includeAll_ext _ Hag), (FunctionExpressionCost_ext _ _ Hag).
  rewrite HC, HI, HFD, HM, HF, HA, HD, HS, HW. reflexivity.
Qed.

Lemma calcElemCostBody_ext node d : agreeOn (getChildren node) f g ->
  calcElemCostBody f node d = calcElemCostBody g node d.
Proof.
  intros Hag. unfold calcElemCostBody.
  now rewrite (scoreChildren_ext _ Hag), (NodeCost_ext _ _ Hag).
Qed.

End Extensionality.

Lemma height_child node child :
  In child (getChildren node) -> height child < height node.
Proof.
  destruct node as [k anc children txt pos]; simpl. intros Hin.
  assert (H : height child <= list_max (map height children)).
  { induction children as [|c cs IH]; simpl in *; [contradiction|].
    destruct Hin as [->|Hin]; [lia|]. specialize (IH Hin). lia. }
  lia.
Qed.

Lemma height_pos node : 0 < height node.
Proof. destruct node; simpl; lia. Qed.

Lemma calcElemCostWithin_irrelevant bound bound' node :
  height node <= bound -> height node <= bound' ->
  forall d, calcElemCostWithin bound node d = calcElemCostWithin bound' node d.
Proof.
  revert bound' node.
  induction bound as [|bound IH]; intros bound' node Hb Hb' d.
  - pose proof (height_pos node); lia.
  - destruct bound' as [|bound']; [pose proof (height_pos node); lia|].
    simpl. apply calcElemCostBody_ext. intros c Hc d'.
    pose proof (height_child node c Hc).
    apply IH; lia.
Qed.

(** [calcElemCost] satisfies the recursive equation the source defines it
    by: the bound on the recursion is never reached. *)
Lemma calcElemCost_unfold node depth :
  calcElemCost node depth = calcElemCostBody calcElemCost node depth.
Proof.
  unfold calcElemCost at 1.
  pose proof (height_pos node) as Hp.
  destruct (height node) as [|h] eqn:Eh; [lia|].
  simpl. apply calcElemCostBody_ext. intros c Hc d.
  pose proof (height_child node c Hc).
  unfold calcElemCost. apply calcElemCostWithin_irrelevant; lia.
Qed.

(** ** Scores are sums *)

Lemma sumScores_app l l' : sumScores (l ++ l') = sumScores l + sumScores l'.
Proof. unfold sumScores. now rewrite map_app, list_sum_app. Qed.

Lemma bind_Ok {A B} (r : Result A) (k : A -> Result B) b :
  bind r k = Ok b -> exists a, r = Ok a /\ k a = Ok b.
Proof. destruct r as [a|e]; simpl; [eauto | discriminate]. Qed.

Lemma balanced_newCost : balanced 0 newCost.
Proof. reflexivity. Qed.

Lemma balanced_addScore k n c : balanced k c -> balanced (k + n) (addScore n c).
Proof. unfold balanced; simpl; lia. Qed.

Lemma balanced_absorb k c sub :
  balanced k c -> balanced 0 sub -> balanced k (absorb sub c).
Proof. unfold balanced; simpl; rewrite sumScores_app; lia. Qed.

Section Balance.

Variable calc : Node -> nat -> Result OutputElem.

Lemma include_balanced k n d c c' :
  include calc n d c = Ok c' -> balanced k c -> balanced k c'.
Proof.
  unfold include. intros H Hb. apply bind_Ok in H as (e & _ & H).
  injection H as <-. unfold balanced in *; simpl.
  rewrite sumScores_app. unfold sumScores at 2; simpl. lia.
Qed.

Lemma includeAll_balanced k l : forall d c c',
  includeAll calc l d c = Ok c' -> balanced k c -> balanced k c'.
Proof.
  induction l as [|n l IH]; simpl; intros d c c' H Hb.
  - now injection H as <-.
  - apply bind_Ok in H as (c1 & H1 & H). eauto using include_balanced.
Qed.

Lemma scoreChildren_balanced k l : forall c c',
  scoreChildren calc l c = Ok c' -> balanced k c -> balanced k c'.
Proof.
  induction l as [|n l IH]; simpl; intros c c' H Hb.
  - now injection H as <-.
  - apply bind_Ok in H as (e & _ & H). apply IH in H; [assumption|].
    unfold balanced in *; simpl.
    rewrite sumScores_app. unfold sumScores at 2; simpl. lia.
Qed.

(** One turn of a loop that returned: follow the arm that was taken. *)
Ltac took_arm IH :=
  repeat match goal with
  | H : Err _ = Ok _ |- _ => discriminate H
  | H : iteratorDone = Ok _ |- _ => discriminate H
  | H : Ok _ = Ok _ |- _ => injection H as <-
  | H : bind _ _ = Ok _ |- _ =>
      let a := fresh "c" in let Ha := fresh "Hinc" in
      apply bind_Ok in H as (a & Ha & H)
  | H : include calc _ _ ?c = Ok ?c', Hb : balanced ?k ?c |- _ =>
      lazymatch goal with
      | _ : balanced k c' |- _ => fail
      | _ => pose proof (include_balanced k _ _ _ _ H Hb)
      end
  | H : (if ?b then _ else _) = Ok _ |- _ => destruct b
  | H : match ?l with nil => _ | cons _ _ => _ end = Ok _ |- _ =>
      is_var l; destruct l; simpl in *
  | |- balanced _ _ => assumption
  | H : _ = Ok ?c' |- balanced _ ?c' =>
      eapply IH; [|exact H|eassumption]; simpl in *; lia
  end.

Lemma IfStatementLoop_balanced k it : forall d c c',
  IfStatementLoop calc it d c = Ok c' -> balanced k c -> balanced k c'.
Proof.
  by_length it n.
  induction n as [|n IH]; intros it Hlen d c c' H Hb;
    (destruct it; simpl in *; [discriminate|]); [lia|].
  took_arm IH.
Qed.

Lemma ForLikeStatementLoop_balanced k it : forall d c c',
  ForLikeStatementLoop calc it d c = Ok c' -> balanced k c -> balanced k c'.
Proof.
  by_length it n.
  induction n as [|n IH]; intros it Hlen d c c' H Hb;
    (destruct it; simpl in *; [discriminate|]); [lia|].
  took_arm IH.
Qed.

Lemma FunctionDeclarationLoop_balanced k it : forall d c c',
  FunctionDeclarationLoop calc it d c = Ok c' -> balanced k c -> balanced k c'.
Proof.
  by_length it n.
  induction n as [|n IH]; intros it Hlen d c c' H Hb;
    (destruct it; simpl in *; [discriminate|]); [lia|].
  took_arm IH.
Qed.

Lemma MethodDeclarationLoop_balanced k it : forall d c c',
  MethodDeclarationLoop calc it d c = Ok c' -> balanced k c -> balanced k c'.
Proof.
  by_length it n.
  induction n as [|n IH]; intros it Hlen d c c' H Hb;
    (destruct it; simpl in *; [discriminate|]); [lia|].
  took_arm IH.
Qed.

Lemma ConditionalExpressionLoop_balanced k it : forall d pending c c',
  ConditionalExpressionLoop calc it d pending c = Ok c' ->
  balanced k c -> balanced k c'.
Proof.
  induction it as [|child it IH]; simpl; intros d pending c c' H Hb.
  - eauto using includeAll_balanced.
  - destruct (isToken child && hasKind QuestionToken child);
      [|destruct (isToken child && hasKind ColonToken child)].
    + apply bind_Ok in H as (c1 & H1 & H). eauto using includeAll_balanced.
    + apply bind_Ok in H as (c1 & H1 & H). eauto using includeAll_balanced.
    + eauto.
Qed.

(** Every construct handler returns a cost object whose score is the sum of
    the scores it collected. *)
Ltac handler_returned :=
  repeat match goal with
  | H : Err _ = Ok _ |- _ => discriminate H
  | H : iteratorDone = Ok _ |- _ => discriminate H
  | H : Ok _ = Ok _ |- _ => injection H as <-
  | H : bind _ _ = Ok _ |- _ =>
      let a := fresh "c" in let Ha := fresh "Hinc" in
      apply bind_Ok in H as (a & Ha & H)
  | H : include calc _ _ ?c = Ok ?c', Hb : balanced ?k ?c |- _ =>
      lazymatch goal with
      | _ : balanced k c' |- _ => fail
      | _ => pose proof (include_balanced k _ _ _ _ H Hb)
      end
  | H : (if ?b then _ else _) = Ok _ |- _ => destruct b
  | H : match ?l with nil => _ | cons _ _ => _ end = Ok _ |- _ =>
      is_var l; destruct l; simpl in *
  | |- balanced _ _ => assumption
  end.

Lemma ArrowFunctionCost_balanced node d c :
  ArrowFunctionCost calc node d = Ok c -> balanced 0 c.
Proof.
  unfold ArrowFunctionCost. intros H. pose proof balanced_newCost.
  apply bind_Ok in H as (t & _ & H).
  destruct (getChildren node); handler_returned.
Qed.

Lemma DoStatementCost_balanced node d c :
  DoStatementCost calc node d = Ok c -> balanced 0 c.
Proof.
  unfold DoStatementCost. intros H. pose proof balanced_newCost.
  destruct (getChildren node); handler_returned.
Qed.

Lemma SwitchStatementCost_balanced node d c :
  SwitchStatementCost calc node d = Ok c -> balanced 0 c.
Proof.
  unfold SwitchStatementCost. intros H. pose proof balanced_newCost.
  destruct (getChildren node); handler_returned.
Qed.

Lemma WhileStatementCost_balanced node d c :
  WhileStatementCost calc node d = Ok c -> balanced 0 c.
Proof.
  unfold WhileStatementCost. intros H. pose proof balanced_newCost.
  destruct (getChildren node); handler_returned.
Qed.

Lemma ForLikeStatementCost_balanced node d c :
  ForLikeStatementCost calc node d = Ok c -> balanced 0 c.
Proof.
  unfold ForLikeStatementCost. intros H.
  destruct (getChildren node) as [|? [|? it]]; try discriminate.
  eauto using ForLikeStatementLoop_balanced, balanced_newCost.
Qed.

Lemma FunctionDeclarationCost_balanced node d c :
  FunctionDeclarationCost calc node d = Ok c -> balanced 0 c.
Proof.
  unfold FunctionDeclarationCost. intros H.
  apply bind_Ok in H as (t & _ & H).
  eauto using FunctionDeclarationLoop_balanced, balanced_newCost.
Qed.

Lemma MethodDeclarationCost_balanced node d c :
  MethodDeclarationCost calc node d = Ok c -> balanced 0 c.
Proof.
  unfold MethodDeclarationCost. intros H.
  apply bind_Ok in H as (t & _ & H).
  eauto using MethodDeclarationLoop_balanced, balanced_newCost.
Qed.

Lemma FunctionExpressionCost_balanced node d c :
  FunctionExpressionCost calc node d = Ok c -> balanced 0 c.
Proof.
  unfold FunctionExpressionCost. intros H.
  apply bind_Ok in H as (t & _ & H).
  apply bind_Ok in H as (c1 & H1 & H).
  apply includeAll_balanced with (k := 0) in H1; [|apply balanced_newCost].
  destruct (hd_error _); simpl in H; [|discriminate].
  eauto using include_balanced.
Qed.

Lemma NodeCost_balanced node d c :
  NodeCost calc node d = Ok c -> balanced (localContribution node d) c.
Proof.
  unfold NodeCost, localContribution. intros H.
  pose proof (balanced_addScore _ (nestingCost node d) _
                (balanced_addScore _ (inherentCost node) _ balanced_newCost))
    as Hb.
  simpl in Hb.
  repeat match type of H with
  | (if ?b then _ else _) = Ok _ => destruct b
  end;
  try (apply bind_Ok in H as (sub & Hsub & H); injection H as <-;
       apply balanced_absorb; [exact Hb|];
       eauto using ArrowFunctionCost_balanced, DoStatementCost_balanced,
         SwitchStatementCost_balanced, WhileStatementCost_balanced,
         ForLikeStatementCost_balanced, FunctionDeclarationCost_balanced,
         MethodDeclarationCost_balanced, FunctionExpressionCost_balanced,
         ConditionalExpressionLoop_balanced, IfStatementLoop_balanced,
         balanced_newCost);
  eauto using includeAll_balanced.
Qed.

End Balance.

(** ** C1: a score is the sum of the collected scores and the local part *)

(** C1.  Whenever [calcElemCost] returns a result for a node at a depth, the
    score of the result is the sum of the scores of the results in its
    [inner] sequence plus the local contribution of the node, which the two
    universal rules of the dispatcher determine; so the score is never below
    the sum of the scores it is composed of. *)
Theorem calcElemCost_score_sum node depth r :
  calcElemCost node depth = Ok r ->
  score r = sumScores (inner r) + localContribution node depth
  /\ sumScores (inner r) <= score r.
Proof.
  rewrite calcElemCost_unfold. unfold calcElemCostBody. intros H.
  apply bind_Ok in H as (c & Hc & H).
  apply bind_Ok in H as (nodeCost & Hn & H).
  injection H as <-.
  apply scoreChildren_balanced with (k := 0) in Hc; [|apply balanced_newCost].
  apply NodeCost_balanced in Hn.
  unfold balanced in *. simpl. rewrite sumScores_app. lia.
Qed.

Lemma calcElemCost_score_sum_witness :
  exists r,
    calcElemCost (sampleFunctionDeclaration [SourceFile]) 2 = Ok r
    /\ score r = sumScores (inner r)
                 + localContribution (sampleFunctionDeclaration [SourceFile]) 2
    /\ sumScores (inner r) <= score r.
Proof.
  eexists. split.
  - vm_compute. reflexivity.
  - apply calcElemCost_score_sum. vm_compute. reflexivity.
Defined.

(** ** C2: the two universal rules of the dispatcher *)

Lemma isBreakOrContinueToLabel_spec node :
  isBreakOrContinueToLabel node = true <-> isJump node /\ hasLabel node.
Proof.
  unfold isBreakOrContinueToLabel, isBreakOrContinueStatement, isJump,
    hasLabel, isIdentifier, hasKind.
  destruct (kind_eqb (kind node) BreakStatement
            || kind_eqb (kind node) ContinueStatement) eqn:E.
  - rewrite orb_true_iff, !kind_eqb_eq in E.
    rewrite existsb_exists. split.
    + intros (child & Hin & Hk). apply kind_eqb_eq in Hk. eauto.
    + intros (_ & child & Hin & Hk). exists child. now rewrite kind_eqb_eq.
  - rewrite orb_false_iff in E. destruct E as [E1 E2].
    split; [discriminate|]. intros ([Hk|Hk] & _).
    + apply kind_eqb_eq in Hk. congruence.
    + apply kind_eqb_eq in Hk. congruence.
Qed.

Lemma inherentCost_spec node :
  inherentCost node =
  if in_dec SyntaxKind_eq_dec (kind node) intrinsicKinds then 1
  else if isBreakOrContinueToLabel node then 1 else 0.
Proof.
  unfold inherentCost, isCatchClause, isConditionalExpression,
    isForInStatement, isForOfStatement, isForStatement, isIfStatement,
    isSwitchStatement, isWhileStatement, hasKind.
  destruct (in_dec SyntaxKind_eq_dec (kind node) intrinsicKinds) as [Hin|Hin].
  - simpl in Hin.
    repeat (destruct Hin as [<-|Hin]; [reflexivity|]). contradiction.
  - simpl in Hin.
    rewrite !kind_eqb_neq by (intros E; apply Hin; rewrite E; tauto).
    reflexivity.
Qed.

Lemma nestingCost_spec node depth :
  nestingCost node depth =
  if in_dec SyntaxKind_eq_dec (kind node) nestingKinds then depth else 0.
Proof.
  unfold nestingCost, isConditionalExpression,
    isForInStatement, isForOfStatement, isForStatement, isIfStatement,
    isSwitchStatement, isWhileStatement, hasKind.
  destruct (in_dec SyntaxKind_eq_dec (kind node) nestingKinds) as [Hin|Hin].
  - simpl in Hin.
    repeat (destruct Hin as [<-|Hin];
            [destruct depth; reflexivity|]). contradiction.
  - simpl in Hin.
    rewrite !kind_eqb_neq by (intros E; apply Hin; rewrite E; tauto).
    now rewrite andb_false_r.
Qed.

(** C2.  The score of the cost object the dispatcher returns exceeds the
    scores it collected by an intrinsic part and a nesting part.  The
    intrinsic part is 1 exactly for the kinds catch clause, conditional
    expression, for-in, for-of, for, if, switch and while and for a break or
    continue statement with an identifier child, and 0 otherwise.  The
    nesting part is the depth exactly when the depth is positive and the
    kind is conditional expression, for-in, for-of, for, if, switch or while,
    and 0 otherwise: a catch clause and a break or continue statement never
    receive it, and a break or continue statement without an identifier
    child contributes nothing. *)
Theorem NodeCost_universal_rules calc node depth c :
  NodeCost calc node depth = Ok c ->
  exists intrinsic nesting,
    _score c = intrinsic + nesting + sumScores (_inner c)
    /\ (In (kind node) intrinsicKinds \/ (isJump node /\ hasLabel node)
        -> intrinsic = 1)
    /\ (~ (In (kind node) intrinsicKinds \/ (isJump node /\ hasLabel node))
        -> intrinsic = 0)
    /\ (0 < depth /\ In (kind node) nestingKinds -> nesting = depth)
    /\ (~ (0 < depth /\ In (kind node) nestingKinds) -> nesting = 0)
    /\ (kind node = CatchClause \/ isJump node -> nesting = 0)
    /\ (isJump node /\ ~ hasLabel node -> intrinsic + nesting = 0).
Proof.
  intros H. apply NodeCost_balanced in H.
  exists (inherentCost node), (nestingCost node depth).
  split; [exact H|]. clear H.
  rewrite inherentCost_spec, nestingCost_spec.
  pose proof (isBreakOrContinueToLabel_spec node) as Hl.
  assert (Hj : isJump node -> ~ In (kind node) intrinsicKinds
                              /\ ~ In (kind node) nestingKinds).
  { unfold isJump. intros [E|E]; rewrite E; simpl;
      intuition discriminate. }
  assert (Hc : kind node = CatchClause -> ~ In (kind node) nestingKinds).
  { intros E; rewrite E; simpl; intuition discriminate. }
  destruct (in_dec SyntaxKind_eq_dec (kind node) intrinsicKinds) as [Hi|Hi];
    destruct (in_dec SyntaxKind_eq_dec (kind node) nestingKinds) as [Hn|Hn];
    destruct (isBreakOrContinueToLabel node);
    repeat split; intros; try reflexivity; try tauto; try lia;
    try (exfalso; intuition congruence);
    try (assert (~ 0 < depth) by tauto; lia).
Qed.

Lemma NodeCost_universal_rules_witness :
  exists c,
    NodeCost calcElemCost (sampleIfElse [Block; WhileStatement; SourceFile]) 1
    = Ok c
    /\ exists intrinsic nesting,
         _score c = intrinsic + nesting + sumScores (_inner c)
         /\ intrinsic = 1 /\ nesting = 1.
Proof.
  eexists. split; [vm_compute; reflexivity|].
  destruct (NodeCost_universal_rules calcElemCost
              (sampleIfElse [Block; WhileStatement; SourceFile]) 1 _
              ltac:(vm_compute; reflexivity))
    as (intrinsic & nesting & Hs & Hi & _ & Hn & _).
  exists intrinsic, nesting. split; [exact Hs|]. split.
  - apply Hi. left. simpl. tauto.
  - apply Hn. split; [lia | simpl; tauto].
Defined.

(** A jump to a label scores 1 at any depth, a plain jump 0; an [if] with
    both branches scores 1 at the top of a file. *)
Example break_to_label_scores_1 :
  scoreOf (calcElemCost (sampleBreakToLabel [Block; WhileStatement]) 3) = Some 1
  /\ scoreOf (calcElemCost (sampleBreak [Block; WhileStatement]) 3) = Some 0.
Proof. split; vm_compute; reflexivity. Qed.

Example if_else_at_top_scores_1 :
  scoreOf (calcElemCost (sampleIfElse [SourceFile]) 0) = Some 1.
Proof. vm_compute. reflexivity. Qed.

(** ** C3: the conditional expression handler *)

Section Handlers_facts.

Variable calc : Node -> nat -> Result OutputElem.

Lemma ConditionalExpressionLoop_pending_empty it : forall depth c,
  ConditionalExpressionLoop calc it depth [] c = Ok c.
Proof.
  induction it as [|child it IH]; intros depth c; simpl; [reflexivity|].
  destruct (isToken child && hasKind QuestionToken child);
    [|destruct (isToken child && hasKind ColonToken child)]; simpl; apply IH.
Qed.

(** C3.  The conditional expression handler scores no child at all: for
    every node and depth it returns the cost object it started from, with
    score 0 and an empty [inner] sequence, whatever stands between the
    question mark and the colon. *)
Theorem ConditionalExpressionCost_scores_nothing node depth :
  ConditionalExpressionCost calc node depth = Ok newCost.
Proof. apply ConditionalExpressionLoop_pending_empty. Qed.

(** ** C4: the while handler *)

(** C4.  On the children [while], [(], condition, [)], body of a while
    statement the handler scores the condition at the current depth and then
    throws the unexpected-node error for the [while] keyword; the body is
    never scored and no result is returned. *)
Theorem WhileStatementCost_throws_on_while_shape
    node depth kw open condition close body :
  getChildren node = [kw; open; condition; close; body] ->
  kind kw = WhileKeyword ->
  kind open = OpenParenToken ->
  kind close = CloseParenToken ->
  WhileStatementCost calc node depth
  = match calc condition depth with
    | Ok _ => Err (UnexpectedNodeError kw)
    | Err e => Err e
    end.
Proof.
  intros Hch Hkw _ _. unfold WhileStatementCost. rewrite Hch. simpl.
  unfold isToken, hasKind, include. rewrite Hkw. simpl.
  destruct (calc condition depth); reflexivity.
Qed.

(** ** C5: the if handler *)

(** C5.  On the children [if], [(], condition, [)], then-branch of an if
    statement without an else part the handler scores the condition and the
    then-branch and then asks the exhausted iterator for one more child: it
    throws and returns no result. *)
Theorem IfStatementCost_throws_without_else
    node depth kw open condition close thenBranch :
  getChildren node = [kw; open; condition; close; thenBranch] ->
  kind kw = IfKeyword ->
  kind open = OpenParenToken ->
  kind close = CloseParenToken ->
  IfStatementCost calc node depth
  = match calc condition depth with
    | Ok _ =>
        match calc thenBranch (depth + 1) with
        | Ok _ => Err IteratorDone
        | Err e => Err e
        end
    | Err e => Err e
    end.
Proof.
  intros Hch Hkw _ Hcl. unfold IfStatementCost. rewrite Hch. simpl.
  unfold isToken, hasKind, include. rewrite Hkw. simpl.
  destruct (calc condition depth); simpl; [|reflexivity].
  rewrite Hcl. simpl.
  destruct (calc thenBranch (depth + 1)); reflexivity.
Qed.

(** With an else part the same handler returns: the condition is scored at
    the current depth and both branches at depth + 1. *)
Lemma IfStatementCost_with_else
    node depth kw open condition close thenBranch elseKw elseBranch :
  getChildren node
  = [kw; open; condition; close; thenBranch; elseKw; elseBranch] ->
  kind kw = IfKeyword ->
  kind close = CloseParenToken ->
  kind elseKw = ElseKeyword ->
  IfStatementCost calc node depth
  = (c <- include calc condition depth newCost ;;
     c <- include calc thenBranch (depth + 1) c ;;
     include calc elseBranch (depth + 1) c).
Proof.
  intros Hch Hkw Hcl Hel. unfold IfStatementCost. rewrite Hch. simpl.
  unfold isToken, hasKind. rewrite Hkw. simpl.
  destruct (include calc condition depth newCost) as [c|e]; simpl;
    [|reflexivity].
  rewrite Hcl. simpl.
  destruct (include calc thenBranch (depth + 1) c) as [c'|e]; simpl;
    [|reflexivity].
  rewrite Hel. reflexivity.
Qed.

(** ** C6: the body of a function declaration *)

(** C6.  For a function declaration with the children [function], name,
    [(], parameter list, [)], block, the handler scores the parameter list
    at the current depth and the block at depth + 1, also when the
    declaration is top-level. *)
Theorem FunctionDeclarationCost_top_level_body_is_nested
    node depth kw name open params close body :
  getChildren node = [kw; name; open; params; close; body] ->
  isToken kw = true -> isToken name = true ->
  isToken open = true -> isToken close = true ->
  kind params = SyntaxList ->
  kind body = Block ->
  isTopLevel node = Ok true ->
  FunctionDeclarationCost calc node depth
  = (c <- include calc params depth newCost ;;
     include calc body (depth + 1) c).
Proof.
  intros Hch Hkw Hname Hopen Hclose Hparams Hbody Htop.
  unfold FunctionDeclarationCost. rewrite Htop, Hch. simpl.
  assert (Htok : forall n, isToken n = true ->
                   isSyntaxList n = false /\ isBlock n = false).
  { intros n. unfold isToken, isSyntaxList, isBlock, hasKind.
    destruct (kind n); simpl; intros; try discriminate; split; reflexivity. }
  destruct (Htok _ Hkw) as [-> ->]. destruct (Htok _ Hname) as [-> ->].
  destruct (Htok _ Hopen) as [-> ->].
  unfold isSyntaxList at 1, hasKind. rewrite Hparams. simpl.
  destruct (include calc params depth newCost) as [c|e]; simpl; [|reflexivity].
  destruct (Htok _ Hclose) as [-> ->].
  unfold isSyntaxList, isBlock, hasKind. rewrite Hbody. reflexivity.
Qed.

(** ** C7: the body of a method declaration *)

Lemma MethodDeclarationLoop_until_block signature afterSignature :
  Forall (fun n => isBlock n = false) signature ->
  forall depth c,
    MethodDeclarationLoop calc (signature ++ afterSignature) depth c
    = (c' <- includeAll calc signature depth c ;;
       MethodDeclarationLoop calc afterSignature depth c').
Proof.
  induction 1 as [|n signature Hn _ IH]; intros depth c; simpl.
  - reflexivity.
  - rewrite Hn.
    destruct (include calc n depth c) as [c'|e]; simpl; [apply IH|reflexivity].
Qed.

(** C7.  The method handler scores the children before the first block at
    the current depth and then takes one more child from the iterator: when
    the block is the last child, as in a method declaration, it throws and
    no result is returned; when a child follows the block, that child is
    scored in the place of the body, at depth + 1 whatever [isTopLevel]
    returned.  The block itself is never scored by the handler. *)
Theorem MethodDeclarationCost_skips_the_block
    node depth signature body :
  Forall (fun n => isBlock n = false) signature ->
  isBlock body = true ->
  (getChildren node = signature ++ [body] ->
   MethodDeclarationCost calc node depth
   = (_topLevel <- isTopLevel node ;;
      _c <- includeAll calc signature depth newCost ;;
      Err IteratorDone))
  /\ (forall afterBlock others,
        getChildren node = signature ++ body :: afterBlock :: others ->
        MethodDeclarationCost calc node depth
        = (_topLevel <- isTopLevel node ;;
           c <- includeAll calc signature depth newCost ;;
           include calc afterBlock (depth + 1) c)).
Proof.
  intros Hsig Hbody. split.
  - intros Hch. unfold MethodDeclarationCost. rewrite Hch.
    destruct (isTopLevel node) as [t|e]; simpl; [|reflexivity].
    rewrite (MethodDeclarationLoop_until_block _ _ Hsig).
    destruct (includeAll calc signature depth newCost); simpl;
      [now rewrite Hbody | reflexivity].
  - intros afterBlock others Hch. unfold MethodDeclarationCost. rewrite Hch.
    destruct (isTopLevel node) as [t|e]; simpl; [|reflexivity].
    rewrite (MethodDeclarationLoop_until_block _ _ Hsig).
    destruct (includeAll calc signature depth newCost); simpl;
      [now rewrite Hbody | reflexivity].
Qed.

(** ** C8: the body of a function expression *)

Lemma skipn_to_last {A} (first : A) middle last :
  skipn (S (List.length middle)) (first :: middle ++ [last]) = [last].
Proof.
  change (skipn (List.length middle) (middle ++ [last]) = [last]).
  rewrite skipn_app, skipn_all, Nat.sub_diag. reflexivity.
Qed.

Lemma slice_last_child {A} (first : A) middle last :
  slice (first :: middle ++ [last]) (-1) None = [last].
Proof.
  unfold slice.
  replace (sliceIndex (List.length (first :: middle ++ [last])) (-1))
    with (List.length (first :: middle ++ [last]) - 1) by reflexivity.
  assert (Hlen : List.length (first :: middle ++ [last])
                 = S (S (List.length middle)))
    by (cbn [List.length]; rewrite length_app; cbn [List.length]; lia).
  rewrite Hlen.
  replace (S (S (List.length middle)) - 1) with (S (List.length middle)) by lia.
  rewrite skipn_to_last.
  replace (S (S (List.length middle)) - S (List.length middle)) with 1 by lia.
  reflexivity.
Qed.

Lemma slice_first_child {A} (first : A) middle last :
  hd_error (slice (first :: middle ++ [last]) 0 (Some (-1)%Z)) = Some first.
Proof.
  unfold slice.
  replace (sliceIndex (List.length (first :: middle ++ [last])) (-1))
    with (List.length (first :: middle ++ [last]) - 1) by reflexivity.
  replace (sliceIndex (List.length (first :: middle ++ [last])) 0)
    with 0 by reflexivity.
  assert (Hlen : List.length (first :: middle ++ [last])
                 = S (S (List.length middle)))
    by (cbn [List.length]; rewrite length_app; cbn [List.length]; lia).
  rewrite Hlen.
  replace (S (S (List.length middle)) - 1 - 0) with (S (List.length middle))
    by lia.
  reflexivity.
Qed.

(** C8.  For a function expression with two children or more the handler
    scores the last child, the block body, at the current depth and the
    first child at depth + 1; the children between them are not scored. *)
Theorem FunctionExpressionCost_swaps_the_depths
    node depth first middle last topLevel :
  getChildren node = first :: middle ++ [last] ->
  isTopLevel node = Ok topLevel ->
  FunctionExpressionCost calc node depth
  = (c <- include calc last depth newCost ;;
     include calc first (depth + 1) c).
Proof.
  intros Hch Htop. unfold FunctionExpressionCost. rewrite Htop, Hch. simpl.
  rewrite slice_last_child, slice_first_child. simpl.
  destruct (include calc last depth newCost); reflexivity.
Qed.

End Handlers_facts.

Lemma WhileStatementCost_throws_on_while_shape_witness :
  WhileStatementCost calcElemCost (sampleWhile [SourceFile]) 0
  = Err (UnexpectedNodeError
           (leaf WhileKeyword [WhileStatement; SourceFile] "while")).
Proof.
  rewrite (WhileStatementCost_throws_on_while_shape calcElemCost
             (sampleWhile [SourceFile]) 0 _ _ _ _ _
             eq_refl eq_refl eq_refl eq_refl).
  vm_compute. reflexivity.
Defined.

Lemma IfStatementCost_throws_without_else_witness :
  IfStatementCost calcElemCost (sampleIf [SourceFile]) 0 = Err IteratorDone.
Proof.
  rewrite (IfStatementCost_throws_without_else calcElemCost
             (sampleIf [SourceFile]) 0 _ _ _ _ _
             eq_refl eq_refl eq_refl eq_refl).
  vm_compute. reflexivity.
Defined.

(** The body of the sample function scores 4 at depth 0 and 5 at depth 1;
    the handler of the top-level declaration records 5. *)
Lemma FunctionDeclarationCost_top_level_body_is_nested_witness :
  isTopLevel (sampleFunctionDeclaration [SourceFile]) = Ok true
  /\ scoreOf (calcElemCost (sampleBlock [FunctionDeclaration; SourceFile]) 0)
     = Some 4
  /\ collectedScores (FunctionDeclarationCost calcElemCost
                        (sampleFunctionDeclaration [SourceFile]) 0)
     = Some [0; 5].
Proof.
  split; [reflexivity|]. split; [vm_compute; reflexivity|].
  rewrite (FunctionDeclarationCost_top_level_body_is_nested calcElemCost
             (sampleFunctionDeclaration [SourceFile]) 0 _ _ _ _ _ _
             eq_refl eq_refl eq_refl eq_refl eq_refl eq_refl eq_refl eq_refl).
  vm_compute. reflexivity.
Defined.

Lemma MethodDeclarationCost_skips_the_block_witness :
  MethodDeclarationCost calcElemCost
    (sampleMethodDeclaration [ClassDeclaration; SourceFile]) 0
  = Err IteratorDone.
Proof.
  rewrite (proj1 (MethodDeclarationCost_skips_the_block calcElemCost
                    (sampleMethodDeclaration [ClassDeclaration; SourceFile]) 0
                    (firstn 4 (getChildren
                       (sampleMethodDeclaration [ClassDeclaration; SourceFile])))
                    (sampleBlock [MethodDeclaration; ClassDeclaration;
                                  SourceFile])
                    ltac:(repeat constructor) eq_refl) eq_refl).
  vm_compute. reflexivity.
Defined.

(** The handler of the sample function expression records the block, scored
    at depth 0, and then the [function] keyword. *)
Lemma FunctionExpressionCost_swaps_the_depths_witness :
  collectedScores (FunctionExpressionCost calcElemCost
                     (sampleFunctionExpression [ExpressionStatement;
                                                SourceFile]) 0)
  = Some [4; 0].
Proof.
  rewrite (FunctionExpressionCost_swaps_the_depths calcElemCost
             (sampleFunctionExpression [ExpressionStatement; SourceFile]) 0
             _ [_; _; _] _ false eq_refl eq_refl).
  vm_compute. reflexivity.
Defined.

(** ** C9: the top-level classifier *)

(** C9.  A function whose parent is the body block of another function is
    classified exactly as that other function is; in particular a function
    declared in the body of a top-level function is classified top-level. *)
Theorem isTopLevel_inside_function_body nested enclosing :
  kind enclosing <> Block ->
  ancestors nested = Block :: kind enclosing :: ancestors enclosing ->
  isTopLevel nested = isTopLevel enclosing
  /\ (isTopLevel enclosing = Ok true -> isTopLevel nested = Ok true).
Proof.
  intros Hk Hanc.
  assert (E : isTopLevel nested = isTopLevel enclosing).
  { unfold isTopLevel. rewrite Hanc. simpl.
    unfold kindIsBlock. now rewrite (kind_eqb_neq _ _ Hk). }
  split; [exact E | now rewrite E].
Qed.

(** The classifier looks through blocks at the parent of the first ancestor
    that is not a block, whatever the kind of that ancestor. *)
Lemma isTopLevelFrom_through_block k above :
  k <> Block ->
  isTopLevelFrom (Block :: k :: above) = isTopLevelFrom above.
Proof.
  intros Hk. simpl. unfold kindIsBlock. now rewrite (kind_eqb_neq _ _ Hk).
Qed.

(** A function in the braces of a top-level [if] is classified top-level. *)
Example isTopLevel_inside_if_body :
  isTopLevelFrom [Block; IfStatement; SourceFile] = Ok true.
Proof. reflexivity. Qed.

(** The parent alone decides when it is neither a block nor the file: an
    arrow function passed as an argument at the top of a file is not
    classified top-level. *)
Lemma isTopLevelFrom_other_parent k above :
  k <> Block -> k <> SourceFile -> isTopLevelFrom (k :: above) = Ok false.
Proof.
  intros Hb Hs. simpl. unfold kindIsBlock, kindIsSourceFile.
  now rewrite (kind_eqb_neq _ _ Hb), (kind_eqb_neq _ _ Hs).
Qed.

Lemma isTopLevel_inside_function_body_witness :
  isTopLevel sampleNestedFunction = Ok true.
Proof.
  apply (proj2 (isTopLevel_inside_function_body sampleNestedFunction
                  (sampleFunctionDeclaration [SourceFile])
                  ltac:(discriminate) eq_refl)).
  reflexivity.
Defined.

(** ** C10: the two passes over the children *)

Lemma scoreChildren_results calc l : forall c c',
  scoreChildren calc l c = Ok c' ->
  exists first,
    Forall2 (fun child e => calc child 0 = Ok e) l first
    /\ _inner c' = _inner c ++ first
    /\ _score c' = _score c + sumScores first.
Proof.
  induction l as [|n l IH]; simpl; intros c c' H.
  - injection H as <-. exists []. rewrite app_nil_r.
    repeat split; [constructor | unfold sumScores; simpl; lia].
  - apply bind_Ok in H as (e & He & H).
    apply IH in H as (first & HF & Hi & Hs). simpl in Hi, Hs.
    exists (e :: first). repeat split.
    + now constructor.
    + now rewrite Hi, <- app_assoc.
    + rewrite Hs. unfold sumScores. simpl. lia.
Qed.


Section Once.

Variable calc : Node -> nat -> Result OutputElem.














End Once.




(** * Further properties of the engine *)

(** ** includeAll and the file root *)

Lemma includeAll_Ok_iff calc nodes depth c c' :
  includeAll calc nodes depth c = Ok c'
  <-> exists results,
        Forall2 (fun node e => calc node depth = Ok e) nodes results
        /\ c' = mkCost (_score c + sumScores results) (_inner c ++ results).
Proof.
  revert c c'. induction nodes as [|n nodes IH]; intros c c'; simpl.
  - split.
    + intros H. injection H as <-. exists []. split; [constructor|].
      destruct c; simpl. unfold sumScores; simpl.
      now rewrite Nat.add_0_r, app_nil_r.
    + intros (results & HF & ->). inversion HF; subst.
      destruct c; simpl. unfold sumScores; simpl.
      now rewrite Nat.add_0_r, app_nil_r.
  - unfold include. split.
    + intros H. apply bind_Ok in H as (c1 & H1 & H).
      apply bind_Ok in H1 as (e & He & H1). injection H1 as <-.
      apply IH in H as (results & HF & ->). simpl.
      exists (e :: results). split; [now constructor|].
      unfold sumScores; simpl. fold (sumScores results).
      now rewrite <- app_assoc, Nat.add_assoc.
    + intros (results & HF & ->). inversion HF as [|? e ? tl He HF']; subst.
      rewrite He. simpl. apply IH. exists tl. split; [assumption|].
      simpl. unfold sumScores; simpl. fold (sumScores tl).
      now rewrite <- app_assoc, Nat.add_assoc.
Qed.

(** [includeAll] returns exactly when every node of the sequence is scored
    at the given depth; it then appends the results in order and adds their
    scores. *)
Theorem includeAll_returns_iff calc nodes depth c c' :
  includeAll calc nodes depth c = Ok c'
  <-> exists results,
        Forall2 (fun node e => calc node depth = Ok e) nodes results
        /\ c' = mkCost (_score c + sumScores results) (_inner c ++ results).
Proof. apply includeAll_Ok_iff. Qed.

(** Including a concatenation is including its parts one after the other. *)
Theorem includeAll_app calc nodes nodes' depth c :
  includeAll calc (nodes ++ nodes') depth c
  = (c' <- includeAll calc nodes depth c ;; includeAll calc nodes' depth c').
Proof.
  revert c. induction nodes as [|n nodes IH]; intros c; simpl; [reflexivity|].
  destruct (include calc n depth c); simpl; [apply IH|reflexivity].
Qed.

(** [calcFileCost] returns exactly when every child of the file is scored
    at depth 0; its score is then the sum of the scores of those results,
    which are its [inner] sequence, and the file adds nothing of its own. *)
Theorem calcFileCost_returns_iff file c :
  calcFileCost file = Ok c
  <-> exists results,
        Forall2 (scoredAt 0) (getChildren file) results
        /\ c = mkCost (sumScores results) results.
Proof.
  unfold calcFileCost, FileCost. rewrite includeAll_Ok_iff. reflexivity.
Qed.

(** ** Exceptions are never caught *)

Lemma throws_bind {A B} (r : Result A) (k : A -> Result B) :
  throws r -> throws (bind r k).
Proof. destruct r; simpl; tauto. Qed.

Lemma scoreChildren_throws calc children child :
  In child children -> throws (calc child 0) ->
  forall c, throws (scoreChildren calc children c).
Proof.
  induction children as [|n children IH]; simpl; [contradiction|].
  intros [->|Hin] Ht c.
  - now apply throws_bind.
  - destruct (calc n 0); simpl; [now apply IH | exact I].
Qed.

Lemma includeAll_throws calc nodes node depth :
  In node nodes -> throws (calc node depth) ->
  forall c, throws (includeAll calc nodes depth c).
Proof.
  induction nodes as [|n nodes IH]; simpl; [contradiction|].
  intros [->|Hin] Ht c.
  - unfold include. now apply throws_bind, throws_bind.
  - destruct (include calc n depth c); simpl; [now apply IH | exact I].
Qed.

Lemma calcElemCost_child_throws node child depth :
  In child (getChildren node) -> throws (calcElemCost child 0) ->
  throws (calcElemCost node depth).
Proof.
  intros Hin Ht. rewrite calcElemCost_unfold. unfold calcElemCostBody.
  apply throws_bind. now apply scoreChildren_throws with (child := child).
Qed.

Lemma calcElemCost_inside_throws node x depth :
  inside node x -> throws (calcElemCost x 0) ->
  throws (calcElemCost node depth).
Proof.
  intros Hin Ht. revert depth.
  induction Hin as [node child Hc | node child x Hc _ IH]; intros depth.
  - now apply calcElemCost_child_throws with (child := child).
  - apply calcElemCost_child_throws with (child := child); [assumption|].
    now apply IH.
Qed.

(** If scoring a node that lies anywhere inside a tree throws at depth 0,
    then scoring the tree throws at every depth: the first loop of
    [calcElemCost] visits every node at depth 0 and nothing catches. *)
Theorem calcElemCost_throws_when_inside_throws node x depth :
  inside node x -> throws (calcElemCost x 0) ->
  throws (calcElemCost node depth).
Proof. apply calcElemCost_inside_throws. Qed.

(** The same for a whole file: [calcFileCost] throws as soon as scoring
    some node inside the file throws at depth 0. *)
Lemma calcFileCost_throws_when_inside_throws file x :
  inside file x -> throws (calcElemCost x 0) -> throws (calcFileCost file).
Proof.
  intros Hin Ht. unfold calcFileCost, FileCost.
  destruct Hin as [child Hc | child y Hc Hy].
  - now apply includeAll_throws with (node := child).
  - apply includeAll_throws with (node := child); [assumption|].
    now apply calcElemCost_inside_throws with (x := y).
Qed.

(** ** Which while and if statements are scored *)

Lemma hasKind_true k n : hasKind k n = true <-> kind n = k.
Proof. unfold hasKind. apply kind_eqb_eq. Qed.

Lemma token_test_true k n :
  isToken n && hasKind k n = true -> kind n = k.
Proof. rewrite andb_true_iff, hasKind_true. tauto. Qed.

Lemma token_test_false k n :
  kind n <> k -> isToken n && hasKind k n = false.
Proof.
  intros H. unfold hasKind. rewrite (kind_eqb_neq _ _ H). apply andb_false_r.
Qed.

Lemma WhileStatementCost_Ok_iff calc node depth c :
  WhileStatementCost calc node depth = Ok c
  <-> exists close body others e,
        getChildren node = close :: body :: others
        /\ kind close = CloseParenToken
        /\ calc body (depth + 1) = Ok e
        /\ c = mkCost (score e) [e].
Proof.
  unfold WhileStatementCost. split.
  - intros H. destruct (getChildren node) as [|child it]; [discriminate|].
    destruct (isToken child && hasKind WhileKeyword child) eqn:Ew.
    + apply token_test_true in Ew.
      rewrite (token_test_false CloseParenToken child) in H
        by (rewrite Ew; discriminate).
      destruct it as [|? [|? ?]]; try discriminate.
      apply bind_Ok in H as (? & _ & H). discriminate.
    + destruct (isToken child && hasKind CloseParenToken child) eqn:Ec;
        [|discriminate].
      apply token_test_true in Ec.
      destruct it as [|body others]; [discriminate|].
      unfold include in H. apply bind_Ok in H as (e & He & H).
      injection H as <-. exists child, body, others, e. auto.
  - intros (close & body & others & e & -> & Hk & He & ->).
    unfold isToken, hasKind, include. rewrite Hk, He. reflexivity.
Qed.

(** The while handler returns exactly when the first child is a close
    parenthesis and the child after it is scored at depth + 1; that child is
    then its only result.  On a first child of any other kind, the [while]
    keyword included, it throws. *)
Theorem WhileStatementCost_returns_iff calc node depth c :
  WhileStatementCost calc node depth = Ok c
  <-> exists close body others e,
        getChildren node = close :: body :: others
        /\ kind close = CloseParenToken
        /\ calc body (depth + 1) = Ok e
        /\ c = mkCost (score e) [e].
Proof. apply WhileStatementCost_Ok_iff. Qed.

(** The loop of the if handler returns only when one of the children it
    walks over is an [else] keyword. *)
Lemma IfStatementLoop_returns_needs_else calc it : forall depth c c',
  IfStatementLoop calc it depth c = Ok c' ->
  exists child, In child it /\ kind child = ElseKeyword.
Proof.
  by_length it n.
  induction n as [|n IH]; intros it Hlen depth c c' H;
    (destruct it as [|child it]; simpl in *; [discriminate|]); [lia|].
  destruct (isToken child && hasKind IfKeyword child).
  - destruct it as [|? [|? it]]; try discriminate.
    apply bind_Ok in H as (c1 & _ & H).
    apply IH in H as (x & Hx & Hk); [|simpl in *; lia].
    exists x. simpl. tauto.
  - destruct (isToken child && hasKind CloseParenToken child).
    + destruct it as [|? it]; [discriminate|].
      apply bind_Ok in H as (c1 & _ & H).
      apply IH in H as (x & Hx & Hk); [|simpl in *; lia].
      exists x. simpl. tauto.
    + destruct (isToken child && hasKind ElseKeyword child) eqn:Ee;
        [|discriminate].
      apply token_test_true in Ee. exists child. simpl. tauto.
Qed.

(** The if handler throws on every if statement without an [else] keyword
    among its children. *)
Lemma IfStatementCost_throws_without_else_keyword calc node depth :
  (forall child, In child (getChildren node) -> kind child <> ElseKeyword) ->
  throws (IfStatementCost calc node depth).
Proof.
  intros Hno. unfold IfStatementCost.
  destruct (IfStatementLoop calc (getChildren node) depth newCost) eqn:E;
    [|exact I].
  apply IfStatementLoop_returns_needs_else in E as (x & Hx & Hk).
  exact (Hno x Hx Hk).
Qed.

(** How the dispatcher routes while and if statements. *)
Lemma NodeCost_WhileStatement calc node depth :
  kind node = WhileStatement ->
  throws (WhileStatementCost calc node depth) ->
  throws (NodeCost calc node depth).
Proof.
  intros Hk Ht. unfold NodeCost, isArrowFunction, isCatchClause,
    isConditionalExpression, isDoStatement, isForLikeStatement,
    isForInStatement, isForOfStatement, isForStatement,
    isFunctionDeclaration, isFunctionExpression, isIfStatement,
    isMethodDeclaration, isSwitchStatement, isWhileStatement, hasKind.
  rewrite Hk. simpl. now apply throws_bind.
Qed.

Lemma NodeCost_IfStatement calc node depth :
  kind node = IfStatement ->
  throws (IfStatementCost calc node depth) ->
  throws (NodeCost calc node depth).
Proof.
  intros Hk Ht. unfold NodeCost, isArrowFunction, isCatchClause,
    isConditionalExpression, isDoStatement, isForLikeStatement,
    isForInStatement, isForOfStatement, isForStatement,
    isFunctionDeclaration, isFunctionExpression, isIfStatement,
    isMethodDeclaration, isSwitchStatement, isWhileStatement, hasKind.
  rewrite Hk. simpl. now apply throws_bind.
Qed.

Lemma calcElemCost_NodeCost_throws node depth :
  throws (NodeCost calcElemCost node depth) ->
  throws (calcElemCost node depth).
Proof.
  intros Ht. rewrite calcElemCost_unfold. unfold calcElemCostBody.
  destruct (scoreChildren calcElemCost (getChildren node) newCost);
    simpl; [|exact I].
  now apply throws_bind.
Qed.

(** [calcFileCost] throws on every file that holds, at any level, a while
    statement whose first child is the [while] keyword. *)
Theorem calcFileCost_throws_on_while file w kw others :
  inside file w ->
  kind w = WhileStatement ->
  getChildren w = kw :: others ->
  kind kw = WhileKeyword ->
  throws (calcFileCost file).
Proof.
  intros Hin Hk Hch Hkw.
  apply calcFileCost_throws_when_inside_throws with (x := w); [assumption|].
  apply calcElemCost_NodeCost_throws, NodeCost_WhileStatement; [assumption|].
  destruct (WhileStatementCost calcElemCost w 0) as [c|] eqn:E; [|exact I].
  apply WhileStatementCost_Ok_iff in E
    as (close & body & rest' & e & Hch' & Hc & _).
  rewrite Hch in Hch'. injection Hch' as -> _. congruence.
Qed.

(** [calcFileCost] throws on every file that holds, at any level, an if
    statement without an [else] keyword among its children. *)
Theorem calcFileCost_throws_on_if_without_else file i :
  inside file i ->
  kind i = IfStatement ->
  (forall child, In child (getChildren i) -> kind child <> ElseKeyword) ->
  throws (calcFileCost file).
Proof.
  intros Hin Hk Hno.
  apply calcFileCost_throws_when_inside_throws with (x := i); [assumption|].
  apply calcElemCost_NodeCost_throws, NodeCost_IfStatement; [assumption|].
  now apply IfStatementCost_throws_without_else_keyword.
Qed.

(** ** The depth changes the score, not the outcome *)

Lemma noLowerCost_bind r r' (k k' : Cost -> Result Cost) :
  noLowerCost r r' ->
  (forall c c', _score c <= _score c' -> noLowerCost (k c) (k' c')) ->
  noLowerCost (bind r k) (bind r' k').
Proof.
  destruct r as [c|e], r' as [c'|e']; simpl; try tauto.
  intros H Hk. now apply Hk.
Qed.

Section Depth.

Variable calc : Node -> nat -> Result OutputElem.

Lemma include_noLower n d d' c c' :
  noLower (calc n d) (calc n d') -> _score c <= _score c' ->
  noLowerCost (include calc n d c) (include calc n d' c').
Proof.
  unfold include, noLower.
  destruct (calc n d) as [e|a], (calc n d') as [e'|a']; simpl; try tauto.
  lia.
Qed.

Lemma includeAll_noLower l : noLowerOn calc l ->
  forall d d' c c', d <= d' -> _score c <= _score c' ->
    noLowerCost (includeAll calc l d c) (includeAll calc l d' c').
Proof.
  induction l as [|n l IH]; intros Hl d d' c c' Hd Hc; simpl; [exact Hc|].
  apply noLowerCost_bind.
  - apply include_noLower; [apply Hl; simpl; tauto | assumption].
  - intros c1 c1' H1. apply IH; try assumption.
    intros m Hm. apply Hl. now right.
Qed.

(** One turn of a handler run at two depths. *)
Ltac two_depths IH Hl :=
  repeat match goal with
  | |- ?x = ?x => reflexivity
  | |- noLowerCost (Err ?e) (Err ?e) => reflexivity
  | |- noLowerCost iteratorDone iteratorDone => reflexivity
  | |- noLowerCost (bind _ _) (bind _ _) =>
      apply noLowerCost_bind; [|intros ? ? ?]
  | |- noLowerCost (include calc ?n (if ?t then _ else _) _)
                   (include calc ?n (if ?t then _ else _) _) =>
      destruct t
  | |- noLowerCost (include calc ?n _ _) (include calc ?n _ _) =>
      apply include_noLower;
      [apply Hl; [simpl; tauto | try lia] | simpl; try assumption; try lia]
  | |- noLowerCost (if ?b then _ else _) (if ?b then _ else _) =>
      destruct b; simpl
  | |- noLowerCost (match ?l with nil => _ | cons _ _ => _ end)
                   (match ?l with nil => _ | cons _ _ => _ end) =>
      is_var l; destruct l; simpl in *
  | |- _ => apply IH;
      [simpl in *; lia
      |intros ? ?; apply Hl; simpl; tauto
      |assumption|assumption]
  end.

Lemma IfStatementLoop_noLower it : noLowerOn calc it ->
  forall d d' c c', d <= d' -> _score c <= _score c' ->
    noLowerCost (IfStatementLoop calc it d c) (IfStatementLoop calc it d' c').
Proof.
  by_length it n.
  induction n as [|n IH]; intros it Hlen Hl d d' c c' Hd Hc;
    (destruct it; simpl in *; [reflexivity|]); [lia|].
  two_depths IH Hl.
Qed.

Lemma ForLikeStatementLoop_noLower it : noLowerOn calc it ->
  forall d d' c c', d <= d' -> _score c <= _score c' ->
    noLowerCost (ForLikeStatementLoop calc it d c)
                (ForLikeStatementLoop calc it d' c').
Proof.
  by_length it n.
  induction n as [|n IH]; intros it Hlen Hl d d' c c' Hd Hc;
    (destruct it; simpl in *; [reflexivity|]); [lia|].
  two_depths IH Hl.
Qed.

Lemma FunctionDeclarationLoop_noLower it : noLowerOn calc it ->
  forall d d' c c', d <= d' -> _score c <= _score c' ->
    noLowerCost (FunctionDeclarationLoop calc it d c)
                (FunctionDeclarationLoop calc it d' c').
Proof.
  by_length it n.
  induction n as [|n IH]; intros it Hlen Hl d d' c c' Hd Hc;
    (destruct it; simpl in *; [reflexivity|]); [lia|].
  two_depths IH Hl.
Qed.

Lemma MethodDeclarationLoop_noLower it : noLowerOn calc it ->
  forall d d' c c', d <= d' -> _score c <= _score c' ->
    noLowerCost (MethodDeclarationLoop calc it d c)
                (MethodDeclarationLoop calc it d' c').
Proof.
  by_length it n.
  induction n as [|n IH]; intros it Hlen Hl d d' c c' Hd Hc;
    (destruct it; simpl in *; [reflexivity|]); [lia|].
  two_depths IH Hl.
Qed.

Lemma ConditionalExpressionLoop_noLower it : noLowerOn calc it ->
  forall pending d d' c c', noLowerOn calc pending ->
    d <= d' -> _score c <= _score c' ->
    noLowerCost (ConditionalExpressionLoop calc it d pending c)
                (ConditionalExpressionLoop calc it d' pending c').
Proof.
  induction it as [|child it IH]; intros Hl pending d d' c c' Hp Hd Hc; simpl.
  - now apply includeAll_noLower.
  - assert (Hit : noLowerOn calc it) by (intros m Hm; apply Hl; now right).
    assert (Hnil : noLowerOn calc []) by (intros m []).
    destruct (isToken child && hasKind QuestionToken child);
      [|destruct (isToken child && hasKind ColonToken child)].
    + apply noLowerCost_bind; [now apply includeAll_noLower|].
      intros c1 c1' H1. now apply IH.
    + apply noLowerCost_bind; [apply includeAll_noLower; auto; lia|].
      intros c1 c1' H1. now apply IH.
    + apply IH; auto. intros m Hm. apply in_app_or in Hm as [Hm|[]]. auto.
Qed.

Lemma noLowerOn_incl l l' : incl l' l -> noLowerOn calc l -> noLowerOn calc l'.
Proof. intros Hi H n Hn. apply H, Hi, Hn. Qed.

Lemma noLowerCost_newCost : _score newCost <= _score newCost.
Proof. reflexivity. Qed.

(** Every construct handler, run on the same node at two depths. *)
Lemma handlers_noLower node d d' :
  noLowerOn calc (getChildren node) -> d <= d' ->
  noLowerCost (ArrowFunctionCost calc node d) (ArrowFunctionCost calc node d')
  /\ noLowerCost (ConditionalExpressionCost calc node d)
                 (ConditionalExpressionCost calc node d')
  /\ noLowerCost (DoStatementCost calc node d) (DoStatementCost calc node d')
  /\ noLowerCost (ForLikeStatementCost calc node d)
                 (ForLikeStatementCost calc node d')
  /\ noLowerCost (FunctionDeclarationCost calc node d)
                 (FunctionDeclarationCost calc node d')
  /\ noLowerCost (FunctionExpressionCost calc node d)
                 (FunctionExpressionCost calc node d')
  /\ noLowerCost (IfStatementCost calc node d) (IfStatementCost calc node d')
  /\ noLowerCost (MethodDeclarationCost calc node d)
                 (MethodDeclarationCost calc node d')
  /\ noLowerCost (SwitchStatementCost calc node d)
                 (SwitchStatementCost calc node d')
  /\ noLowerCost (WhileStatementCost calc node d)
                 (WhileStatementCost calc node d').
Proof.
  intros Hl Hd. pose proof noLowerCost_newCost as H0.
  assert (Hnil : noLowerOn calc []) by (intros m []).
  repeat split.
  - unfold ArrowFunctionCost.
    destruct (isTopLevel node) as [t|e]; simpl; [|reflexivity].
    destruct (getChildren node) as [|? l]; simpl; [reflexivity|].
    two_depths False Hl.
  - now apply ConditionalExpressionLoop_noLower.
  - unfold DoStatementCost.
    destruct (getChildren node) as [|? l]; simpl; [reflexivity|].
    two_depths False Hl.
  - unfold ForLikeStatementCost.
    destruct (getChildren node) as [|? [|? l]]; simpl; try reflexivity.
    apply ForLikeStatementLoop_noLower; auto.
    intros m Hm. apply Hl. simpl; tauto.
  - unfold FunctionDeclarationCost.
    destruct (isTopLevel node) as [t|e]; simpl; [|reflexivity].
    now apply FunctionDeclarationLoop_noLower.
  - unfold FunctionExpressionCost.
    destruct (isTopLevel node) as [t|e]; simpl; [|reflexivity].
    apply noLowerCost_bind.
    + apply includeAll_noLower; auto.
      eapply noLowerOn_incl; [apply slice_incl | exact Hl].
    + intros c c' Hc.
      destruct (hd_error (slice (getChildren node) 0 (Some (-1)%Z)))
        as [n|] eqn:E; simpl; [|reflexivity].
      apply include_noLower; [|assumption].
      apply Hl; [|lia].
      apply (slice_incl (getChildren node) 0 (Some (-1)%Z)).
      destruct (slice (getChildren node) 0 (Some (-1)%Z));
        inversion E; now left.
  - now apply IfStatementLoop_noLower.
  - unfold MethodDeclarationCost.
    destruct (isTopLevel node) as [t|e]; simpl; [|reflexivity].
    now apply MethodDeclarationLoop_noLower.
  - unfold SwitchStatementCost.
    destruct (getChildren node) as [|? l]; simpl; [reflexivity|].
    two_depths False Hl.
  - unfold WhileStatementCost.
    destruct (getChildren node) as [|? l]; simpl; [reflexivity|].
    two_depths False Hl.
Qed.

Lemma nestingCost_le node d d' :
  d <= d' -> nestingCost node d <= nestingCost node d'.
Proof.
  intros Hd. rewrite !nestingCost_spec.
  destruct (in_dec SyntaxKind_eq_dec (kind node) nestingKinds); lia.
Qed.

Lemma NodeCost_noLower node d d' :
  noLowerOn calc (getChildren node) -> d <= d' ->
  noLowerCost (NodeCost calc node d) (NodeCost calc node d').
Proof.
  intros Hl Hd.
  destruct (handlers_noLower node d d' Hl Hd)
    as (HA & HC & HD & HF & HFD & HFE & HI & HM & HS & HW).
  pose proof (nestingCost_le node d d' Hd) as Hn.
  assert (Habsorb : forall r r' c0 c0',
             noLowerCost r r' -> _score c0 <= _score c0' ->
             noLowerCost (sub <- r ;; Ok (absorb sub c0))
                         (sub <- r' ;; Ok (absorb sub c0'))).
  { intros r r' c0 c0' Hr Hc. apply noLowerCost_bind; [assumption|].
    intros c c' Hcc. simpl. lia. }
  unfold NodeCost.
  repeat match goal with
  | |- noLowerCost (if ?b then _ else _) (if ?b then _ else _) => destruct b
  end;
  try (apply Habsorb; [assumption | simpl; lia]);
  apply includeAll_noLower; try assumption; simpl; lia.
Qed.

Lemma calcElemCostBody_noLower node d d' :
  noLowerOn calc (getChildren node) -> d <= d' ->
  noLower (calcElemCostBody calc node d) (calcElemCostBody calc node d').
Proof.
  intros Hl Hd. unfold calcElemCostBody.
  destruct (scoreChildren calc (getChildren node) newCost) as [c|e]; simpl;
    [|reflexivity].
  pose proof (NodeCost_noLower node d d' Hl Hd) as H.
  destruct (NodeCost calc node d) as [n|a], (NodeCost calc node d') as [n'|a'];
    simpl in *; try tauto. lia.
Qed.

End Depth.

Lemma calcElemCost_noLower node : forall d d',
  d <= d' -> noLower (calcElemCost node d) (calcElemCost node d').
Proof.
  remember (height node) as h eqn:Hh.
  assert (Hle : height node <= h) by lia. clear Hh. revert node Hle.
  induction h as [|h IH]; intros node Hle d d' Hd.
  - pose proof (height_pos node). lia.
  - rewrite !calcElemCost_unfold. apply calcElemCostBody_noLower; [|assumption].
    intros child Hc. apply IH.
    pose proof (height_child node child Hc). lia.
Qed.

(** A deeper position never lowers a score: when a node is scored at two
    depths, the higher depth gives at least the score of the lower one. *)
Theorem calcElemCost_score_monotone node d d' r r' :
  d <= d' ->
  calcElemCost node d = Ok r ->
  calcElemCost node d' = Ok r' ->
  score r <= score r'.
Proof.
  intros Hd H H'. pose proof (calcElemCost_noLower node d d' Hd) as Hn.
  now rewrite H, H' in Hn.
Qed.

(** Whether [calcElemCost] throws, and which exception, depends on the node
    alone: at any two depths it throws the same exception or returns at
    both. *)
Theorem calcElemCost_outcome_depth_independent node d d' :
  match calcElemCost node d, calcElemCost node d' with
  | Ok _, Ok _ => True
  | Err e, Err e' => e = e'
  | _, _ => False
  end.
Proof.
  destruct (Nat.le_ge_cases d d') as [H|H];
    apply calcElemCost_noLower with (node := node) in H; unfold noLower in H;
    destruct (calcElemCost node d), (calcElemCost node d');
    try tauto; congruence.
Qed.

(** ** Nodes without a handler *)

Lemma scoreChildren_Ok_iff calc children c c' :
  scoreChildren calc children c = Ok c'
  <-> exists results,
        Forall2 (fun child e => calc child 0 = Ok e) children results
        /\ c' = mkCost (_score c + sumScores results) (_inner c ++ results).
Proof.
  revert c c'. induction children as [|n children IH]; intros c c'; simpl.
  - split.
    + intros H. injection H as <-. exists []. split; [constructor|].
      destruct c; simpl. unfold sumScores; simpl.
      now rewrite Nat.add_0_r, app_nil_r.
    + intros (results & HF & ->). inversion HF; subst.
      destruct c; simpl. unfold sumScores; simpl.
      now rewrite Nat.add_0_r, app_nil_r.
  - split.
    + intros H. apply bind_Ok in H as (e & He & H).
      apply IH in H as (results & HF & ->). simpl.
      exists (e :: results). split; [now constructor|].
      unfold sumScores; simpl. fold (sumScores results).
      now rewrite <- app_assoc, Nat.add_assoc.
    + intros (results & HF & ->). inversion HF as [|? e ? tl He HF']; subst.
      rewrite He. simpl. apply IH. exists tl. split; [assumption|].
      simpl. unfold sumScores; simpl. fold (sumScores tl).
      now rewrite <- app_assoc, Nat.add_assoc.
Qed.

Lemma reachesDefaultArm_NodeCost calc node depth :
  reachesDefaultArm node = true ->
  NodeCost calc node depth
  = includeAll calc (getChildren node) depth
      (mkCost (inherentCost node) []).
Proof.
  intros Hd. unfold reachesDefaultArm in Hd.
  rewrite negb_true_iff, !orb_false_iff in Hd.
  destruct Hd as ((((((((((Ha & Hcc) & Hce) & Hdo) & Hfl) & Hfd) & Hfe)
                      & Hif) & Hmd) & Hsw) & Hwh).
  unfold NodeCost.
  rewrite Ha, Hcc, Hce, Hdo, Hfl, Hfd, Hfe, Hif, Hmd, Hsw, Hwh.
  assert (Hn : nestingCost node depth = 0).
  { unfold nestingCost. unfold isForLikeStatement in Hfl.
    rewrite !orb_false_iff in Hfl. destruct Hfl as ((Hfi & Hfo) & Hfs).
    rewrite Hce, Hfi, Hfo, Hfs, Hif, Hsw, Hwh. now rewrite andb_false_r. }
  rewrite Hn. unfold addScore, newCost. simpl.
  now rewrite Nat.add_0_r.
Qed.

Lemma calcElemCost_default_arm_result node depth first second :
  reachesDefaultArm node = true ->
  Forall2 (scoredAt 0) (getChildren node) first ->
  Forall2 (scoredAt depth) (getChildren node) second ->
  calcElemCost node depth
  = Ok (mkElem (getFullText node)
          (sumScores first + (inherentCost node + sumScores second))
          (fst (getStart node)) (snd (getStart node))
          (first ++ second)).
Proof.
  intros Hd H1 H2. rewrite calcElemCost_unfold. unfold calcElemCostBody.
  assert (E1 : scoreChildren calcElemCost (getChildren node) newCost
               = Ok (mkCost (sumScores first) first)).
  { apply scoreChildren_Ok_iff. exists first. split; [exact H1|reflexivity]. }
  assert (E2 : NodeCost calcElemCost node depth
               = Ok (mkCost (inherentCost node + sumScores second) second)).
  { rewrite (reachesDefaultArm_NodeCost _ _ _ Hd).
    apply includeAll_Ok_iff. exists second. split; [exact H2|reflexivity]. }
  rewrite E1, E2. reflexivity.
Qed.

(** A node that no construct handler takes, with children that are scored
    at depth 0 and at the current depth, is itself scored: its [inner]
    sequence is the results at depth 0 followed by the results at the
    current depth, and its score is the sum of both plus its inherent
    cost; it never receives a nesting addend. *)
Theorem calcElemCost_default_arm node depth first second :
  reachesDefaultArm node = true ->
  Forall2 (scoredAt 0) (getChildren node) first ->
  Forall2 (scoredAt depth) (getChildren node) second ->
  calcElemCost node depth
  = Ok (mkElem (getFullText node)
          (sumScores first + (inherentCost node + sumScores second))
          (fst (getStart node)) (snd (getStart node))
          (first ++ second)).
Proof. apply calcElemCost_default_arm_result. Qed.

(** At depth 0 a plain parent of a single child that is no jump to a label
    scores twice what the child scores: the child is counted by the first
    loop and by the dispatcher. *)
Theorem calcElemCost_plain_parent_doubles node child e :
  reachesDefaultArm node = true ->
  isBreakOrContinueToLabel node = false ->
  getChildren node = [child] ->
  calcElemCost child 0 = Ok e ->
  scoreOf (calcElemCost node 0) = Some (2 * score e).
Proof.
  intros Hd Hl Hch He.
  assert (HF : Forall2 (scoredAt 0) (getChildren node) [e])
    by (rewrite Hch; repeat constructor; exact He).
  rewrite (calcElemCost_default_arm_result node 0 [e] [e] Hd HF HF). simpl.
  assert (Hi : inherentCost node = 0).
  { unfold reachesDefaultArm in Hd.
    rewrite negb_true_iff, !orb_false_iff in Hd.
    destruct Hd as ((((((((((Ha & Hcc) & Hce) & Hdo) & Hfl) & Hfd) & Hfe)
                        & Hif) & Hmd) & Hsw) & Hwh).
    unfold isForLikeStatement in Hfl.
    rewrite !orb_false_iff in Hfl. destruct Hfl as ((Hfi & Hfo) & Hfs).
    unfold inherentCost.
    now rewrite Hcc, Hce, Hfi, Hfo, Hfs, Hif, Hsw, Hwh, Hl. }
  rewrite Hi. unfold sumScores. simpl. f_equal. lia.
Qed.

(** ** No inherent cost is lost *)

Lemma countInherent_unfold node :
  countInherent node
  = inherentCost node + list_sum (map countInherent (getChildren node)).
Proof. destruct node; reflexivity. Qed.

(** Whatever the handlers do with the children, the score of a tree is at
    least the number of its nodes that carry the inherent cost: the first
    loop of [calcElemCost] scores every child. *)
Theorem calcElemCost_counts_every_inherent_cost node : forall depth r,
  calcElemCost node depth = Ok r -> countInherent node <= score r.
Proof.
  remember (height node) as h eqn:Hh.
  assert (Hle : height node <= h) by lia. clear Hh. revert node Hle.
  induction h as [|h IH]; intros node Hle depth r H.
  - pose proof (height_pos node). lia.
  - rewrite calcElemCost_unfold in H. unfold calcElemCostBody in H.
    apply bind_Ok in H as (c & Hc & H).
    apply bind_Ok in H as (nodeCost & Hn & H). injection H as <-.
    apply scoreChildren_results in Hc as (first & HF & _ & Hs).
    apply NodeCost_balanced in Hn. unfold balanced, localContribution in Hn.
    rewrite countInherent_unfold. simpl. rewrite Hs. simpl.
    assert (Hsum : list_sum (map countInherent (getChildren node))
                   <= sumScores first).
    { assert (Hh : forall child, In child (getChildren node) ->
                     height child <= h)
        by (intros child Hc; pose proof (height_child node child Hc); lia).
      clear - HF IH Hh.
      induction HF as [|child e children results He _ IHF]; simpl; [lia|].
      unfold sumScores; simpl. fold (sumScores results).
      pose proof (IH child (Hh child (or_introl eq_refl)) 0 e He).
      assert (list_sum (map countInherent children) <= sumScores results)
        by (apply IHF; intros x Hx; apply Hh; now right).
      lia. }
    lia.
Qed.

(** ** The loops: for, for-in and for-of *)

Section More_handlers.

Variable calc : Node -> nat -> Result OutputElem.

Lemma ForLikeStatementLoop_head head afterHead :
  Forall (fun n => kind n <> CloseParenToken) head ->
  forall depth c,
    ForLikeStatementLoop calc (head ++ afterHead) depth c
    = (c' <- includeAll calc head depth c ;;
       ForLikeStatementLoop calc afterHead depth c').
Proof.
  induction 1 as [|n head Hn _ IH]; intros depth c; simpl; [reflexivity|].
  rewrite (token_test_false _ _ Hn).
  destruct (include calc n depth c); simpl; [apply IH | reflexivity].
Qed.

(** The for-like handler skips the first two children, scores every child
    up to the first close parenthesis at the current depth, semicolons
    included, and scores the child after that parenthesis at depth + 1;
    what follows is not looked at. *)
Theorem ForLikeStatementCost_shape
    node depth kw open head close body others :
  getChildren node = kw :: open :: head ++ close :: body :: others ->
  Forall (fun n => kind n <> CloseParenToken) head ->
  kind close = CloseParenToken ->
  ForLikeStatementCost calc node depth
  = (c <- includeAll calc head depth newCost ;;
     include calc body (depth + 1) c).
Proof.
  intros Hch Hhead Hclose. unfold ForLikeStatementCost. rewrite Hch.
  rewrite (ForLikeStatementLoop_head _ _ Hhead).
  destruct (includeAll calc head depth newCost); simpl; [|reflexivity].
  unfold isToken, hasKind. rewrite Hclose. reflexivity.
Qed.

Lemma ForLikeStatementLoop_returns_needs_close it : forall depth c c',
  ForLikeStatementLoop calc it depth c = Ok c' ->
  exists close body,
    In close it /\ kind close = CloseParenToken /\ In body it.
Proof.
  induction it as [|child it IH]; simpl; intros depth c c' H; [discriminate|].
  destruct (isToken child && hasKind CloseParenToken child) eqn:E.
  - apply token_test_true in E. destruct it as [|body it]; [discriminate|].
    exists child, body. simpl. tauto.
  - apply bind_Ok in H as (c1 & _ & H).
    apply IH in H as (close & body & Hc & Hk & Hb).
    exists close, body. tauto.
Qed.

(** The for-like handler throws when no child after the first two is a
    close parenthesis. *)
Lemma ForLikeStatementCost_throws_without_close node depth :
  (forall child, In child (skipn 2 (getChildren node)) ->
                 kind child <> CloseParenToken) ->
  throws (ForLikeStatementCost calc node depth).
Proof.
  intros Hno. unfold ForLikeStatementCost.
  destruct (getChildren node) as [|kw [|open it]]; try exact I.
  simpl in Hno.
  destruct (ForLikeStatementLoop calc it depth newCost) eqn:E; [|exact I].
  apply ForLikeStatementLoop_returns_needs_close in E
    as (close & _ & Hc & Hk & _).
  exact (Hno close Hc Hk).
Qed.

(** ** Declarations without a body *)

Lemma FunctionDeclarationLoop_returns_needs_block it : forall depth c c',
  FunctionDeclarationLoop calc it depth c = Ok c' ->
  exists body, In body it /\ kind body = Block.
Proof.
  induction it as [|child it IH]; simpl; intros depth c c' H; [discriminate|].
  destruct (isSyntaxList child).
  - apply bind_Ok in H as (c1 & _ & H).
    apply IH in H as (body & Hb & Hk). exists body. tauto.
  - destruct (isBlock child) eqn:E.
    + apply hasKind_true in E. exists child. tauto.
    + apply IH in H as (body & Hb & Hk). exists body. tauto.
Qed.

(** The handler of a function declaration throws when no child is a block,
    as for an overload signature or an ambient declaration. *)
Theorem FunctionDeclarationCost_throws_without_block node depth :
  (forall child, In child (getChildren node) -> kind child <> Block) ->
  throws (FunctionDeclarationCost calc node depth).
Proof.
  intros Hno. unfold FunctionDeclarationCost.
  destruct (isTopLevel node); simpl; [|exact I].
  destruct (FunctionDeclarationLoop calc (getChildren node) depth newCost)
    eqn:E; [|exact I].
  apply FunctionDeclarationLoop_returns_needs_block in E as (b & Hb & Hk).
  exact (Hno b Hb Hk).
Qed.

(** ** Handlers that count their children *)

(** The arrow function, do and switch handlers take five children by
    position and never look at their kinds: on a node with fewer than five
    children each of them throws. *)
Theorem positional_handlers_throw_below_five_children node depth :
  List.length (getChildren node) < 5 ->
  throws (ArrowFunctionCost calc node depth)
  /\ throws (DoStatementCost calc node depth)
  /\ throws (SwitchStatementCost calc node depth).
Proof.
  intros Hlen.
  unfold ArrowFunctionCost, DoStatementCost, SwitchStatementCost.
  destruct (getChildren node) as [|a [|b [|c [|d [|e l]]]]];
    simpl in Hlen; try lia;
    repeat split;
    try (destruct (isTopLevel node); simpl);
    repeat match goal with
    | |- throws (bind ?r _) => destruct r; simpl
    end; exact I.
Qed.

(** For an arrow function with the children [(], parameter list, [)],
    [=>], body, the handler scores the parameter list at the current depth
    and the body at depth + 1 whatever [isTopLevel] returned: the
    classification is computed and never lowers the depth of the body. *)
Theorem ArrowFunctionCost_body_is_nested
    node depth topLevel open params close arrow body :
  isTopLevel node = Ok topLevel ->
  getChildren node = [open; params; close; arrow; body] ->
  kind open = OpenParenToken ->
  kind params = SyntaxList ->
  kind close = CloseParenToken ->
  kind arrow = EqualsGreaterThanToken ->
  ArrowFunctionCost calc node depth
  = (c <- include calc params depth newCost ;;
     include calc body (depth + 1) c).
Proof.
  intros Htop Hch _ _ _ _. unfold ArrowFunctionCost.
  rewrite Htop, Hch. reflexivity.
Qed.

End More_handlers.

(** ** The top-level classifier on whole parent chains *)

Lemma isTopLevelFrom_block_block above :
  isTopLevelFrom (Block :: Block :: above) = isTopLevelFrom (Block :: above).
Proof. reflexivity. Qed.

Lemma isTopLevelFrom_rooted pre :
  (exists b, isTopLevelFrom (pre ++ [SourceFile]) = Ok b)
  /\ (exists b, isTopLevelFrom (Block :: pre ++ [SourceFile]) = Ok b).
Proof.
  induction pre as [|k pre [IH1 IH2]].
  - split; exists true; reflexivity.
  - destruct (SyntaxKind_eq_dec k Block) as [->|Hb].
    + split; [exact IH2|].
      simpl app. rewrite isTopLevelFrom_block_block. exact IH2.
    + split.
      * destruct (SyntaxKind_eq_dec k SourceFile) as [->|Hs].
        -- exists true. reflexivity.
        -- exists false. simpl app.
           now apply isTopLevelFrom_other_parent.
      * simpl app. rewrite (isTopLevelFrom_through_block _ _ Hb). exact IH1.
Qed.

(** On a node whose chain of parents ends at the file, [isTopLevel] returns
    a boolean: it never throws. *)
Theorem isTopLevel_returns_under_a_file node pre :
  ancestors node = pre ++ [SourceFile] ->
  exists b, isTopLevel node = Ok b.
Proof.
  intros H. unfold isTopLevel. rewrite H. apply isTopLevelFrom_rooted.
Qed.

(** On a node whose parents are blocks all the way up, [isTopLevel] walks
    past the last of them and throws. *)
Theorem isTopLevel_throws_under_blocks_only node :
  ancestors node <> [] ->
  Forall (fun k => k = Block) (ancestors node) ->
  isTopLevel node = Err TypeError.
Proof.
  unfold isTopLevel. intros Hne Hall.
  destruct (ancestors node) as [|k chain]; [congruence|]. clear Hne.
  inversion Hall as [|? ? -> Hchain]; subst. clear Hall.
  induction Hchain as [|k chain -> _ IH]; [reflexivity|].
  rewrite isTopLevelFrom_block_block. exact IH.
Qed.

(** ** The further properties on the sample trees *)

Lemma inside_sampleFile stmt others :
  inside (sampleFile (stmt :: others)) stmt.
Proof.
  apply inside_deeper
    with (child := mkNode SyntaxList [SourceFile] (stmt :: others) "" (0, 0)).
  - simpl. tauto.
  - apply inside_child. simpl. tauto.
Defined.

Lemma calcElemCost_throws_when_inside_throws_witness :
  throws (calcElemCost (sampleFile [sampleWhile [SourceFile]]) 3).
Proof.
  apply (calcElemCost_throws_when_inside_throws
           (sampleFile [sampleWhile [SourceFile]]) (sampleWhile [SourceFile]) 3
           (inside_sampleFile _ _)).
  vm_compute. exact I.
Defined.

Lemma calcFileCost_throws_on_while_witness :
  throws (calcFileCost (sampleFile [sampleWhile [SourceFile]])).
Proof.
  apply (calcFileCost_throws_on_while
           (sampleFile [sampleWhile [SourceFile]]) (sampleWhile [SourceFile])
           _ _ (inside_sampleFile _ _) eq_refl eq_refl eq_refl).
Defined.

Lemma calcFileCost_throws_on_if_without_else_witness :
  throws (calcFileCost (sampleFile [sampleIf [SourceFile]])).
Proof.
  apply (calcFileCost_throws_on_if_without_else
           (sampleFile [sampleIf [SourceFile]]) (sampleIf [SourceFile])
           (inside_sampleFile _ _) eq_refl).
  intros child Hin. simpl in Hin.
  repeat (destruct Hin as [<-|Hin]; [discriminate|]). contradiction.
Defined.

Lemma calcElemCost_score_monotone_witness :
  exists r r',
    calcElemCost (sampleFunctionDeclaration [SourceFile]) 0 = Ok r
    /\ calcElemCost (sampleFunctionDeclaration [SourceFile]) 2 = Ok r'
    /\ score r = 9 /\ score r' = 11 /\ score r <= score r'.
Proof.
  eexists. eexists.
  split; [vm_compute; reflexivity|]. split; [vm_compute; reflexivity|].
  split; [reflexivity|]. split; [reflexivity|].
  apply (calcElemCost_score_monotone
           (sampleFunctionDeclaration [SourceFile]) 0 2);
    [lia | vm_compute; reflexivity | vm_compute; reflexivity].
Defined.

Lemma calcElemCost_default_arm_witness :
  scoreOf (calcElemCost (sampleBlock [SourceFile]) 1) = Some 5.
Proof.
  eapply eq_trans.
  - apply (f_equal scoreOf). eapply calcElemCost_default_arm.
    + reflexivity.
    + repeat (constructor; [vm_compute; reflexivity|]). constructor.
    + repeat (constructor; [vm_compute; reflexivity|]). constructor.
  - vm_compute. reflexivity.
Defined.

Lemma calcElemCost_plain_parent_doubles_witness :
  scoreOf (calcElemCost (sampleStatements [Block; SourceFile]) 0) = Some 2.
Proof.
  rewrite (calcElemCost_plain_parent_doubles
             (sampleStatements [Block; SourceFile])
             (sampleIfElse [Block; SourceFile])
             _ eq_refl eq_refl eq_refl ltac:(vm_compute; reflexivity)).
  reflexivity.
Defined.

Lemma calcElemCost_counts_every_inherent_cost_witness :
  exists r,
    calcElemCost (sampleFor [SourceFile]) 0 = Ok r
    /\ countInherent (sampleFor [SourceFile]) = 2
    /\ countInherent (sampleFor [SourceFile]) <= score r.
Proof.
  eexists. split; [vm_compute; reflexivity|]. split; [reflexivity|].
  apply (calcElemCost_counts_every_inherent_cost (sampleFor [SourceFile]) 0).
  vm_compute. reflexivity.
Defined.

Lemma ForLikeStatementCost_shape_witness :
  collectedScores (ForLikeStatementCost calcElemCost (sampleFor [SourceFile]) 0)
  = Some [0; 0; 2].
Proof.
  rewrite (ForLikeStatementCost_shape calcElemCost (sampleFor [SourceFile]) 0
             _ _ [_; _] _ _ [] eq_refl).
  - vm_compute. reflexivity.
  - repeat constructor; simpl; discriminate.
  - reflexivity.
Defined.

Lemma FunctionDeclarationCost_throws_without_block_witness :
  throws (FunctionDeclarationCost calcElemCost (sampleOverload [SourceFile]) 0).
Proof.
  apply FunctionDeclarationCost_throws_without_block.
  intros child Hin. simpl in Hin.
  repeat (destruct Hin as [<-|Hin]; [discriminate|]). contradiction.
Defined.

Lemma positional_handlers_throw_below_five_children_witness :
  throws (ArrowFunctionCost calcElemCost
            (sampleShortArrowFunction [VariableDeclaration; SourceFile]) 0).
Proof.
  apply (positional_handlers_throw_below_five_children calcElemCost
           (sampleShortArrowFunction [VariableDeclaration; SourceFile]) 0).
  simpl. lia.
Defined.

Lemma ArrowFunctionCost_body_is_nested_witness :
  isTopLevel (sampleArrowFunction [SourceFile]) = Ok true
  /\ collectedScores
       (ArrowFunctionCost calcElemCost (sampleArrowFunction [SourceFile]) 0)
     = Some [0; 5].
Proof.
  split; [reflexivity|].
  rewrite (ArrowFunctionCost_body_is_nested calcElemCost
             (sampleArrowFunction [SourceFile]) 0 true _ _ _ _ _
             eq_refl eq_refl eq_refl eq_refl eq_refl eq_refl).
  vm_compute. reflexivity.
Defined.

Lemma isTopLevel_returns_under_a_file_witness :
  exists b, isTopLevel sampleNestedFunction = Ok b.
Proof.
  apply (isTopLevel_returns_under_a_file sampleNestedFunction
           [Block; FunctionDeclaration] eq_refl).
Defined.

Lemma isTopLevel_throws_under_blocks_only_witness :
  isTopLevel (leaf FunctionDeclaration [Block; Block] "") = Err TypeError.
Proof.
  apply isTopLevel_throws_under_blocks_only.
  - simpl. discriminate.
  - simpl. repeat constructor.
Defined.

Lemma IfStatementCost_with_else_witness :
  collectedScores (IfStatementCost calcElemCost (sampleIfElse [SourceFile]) 2)
  = Some [0; 0; 0].
Proof.
  rewrite (IfStatementCost_with_else calcElemCost (sampleIfElse [SourceFile]) 2
             _ _ _ _ _ _ _ eq_refl eq_refl eq_refl eq_refl).
  vm_compute. reflexivity.
Defined.
